(** * The matrix-product-state simulator state (AER::MatrixProductState::State)

    A shallow embedding of
    [simulators/matrix_product_state/matrix_product_state.hpp]: the [State]
    class that drives an [MPS] register ([qreg_]) and a classical register
    ([creg_]).

    - [uint_t] values are integers in [Z]; where the source converts them
      (to [int_t], to [double]) the conversion is written out.
    - [double] values are IEEE binary64 numbers ([PrimFloat.float]).
    - [reg_t] and the other [std::vector]s are lists; an unchecked
      [operator[]] outside the vector is undefined behaviour ([Undefined]).
      The two samplers size vectors by the shot count: there [reserve] and
      [resize] throw as the standard says ([allocate]); every other vector
      is small and taken to be allocated.
    - A method is a function from the object it may mutate to an [outcome]:
      a normal return, or a thrown exception, each with the object as the
      method leaves it.
    - The [MPS] class itself, the JSON reader, the random number engine and
      the C library live in other files; the operations this file calls on
      them are the variables of the sections below. *)

From Stdlib Require Import ZArith Floats.
From stdpp Require Import base option list list_numbers sorting strings gmap.

Set Warnings "-inexact-float".
Local Open Scope Z_scope.

(** ** Scalars and vectors *)

Abbreviation uint_t := Z (only parsing).
Abbreviation int_t := Z (only parsing).
Abbreviation double := float (only parsing).
Abbreviation reg_t := (list Z) (only parsing).
Abbreviation rvector_t := (list float) (only parsing).

Definition UINT64_MAX : uint_t := 2 ^ 64 - 1.

(** [static_cast<int_t>(u)] for a [uint_t] [u]: the same 64 bits read as a
    two's complement number. *)
Definition to_int_t (u : uint_t) : int_t :=
  if decide (u < 2 ^ 63) then u else u - 2 ^ 64.

(** [static_cast<double>(u)] for a [uint_t] [u]: the nearest binary64 number
    (ties to even). *)
Definition to_double (u : uint_t) : double :=
  SF2Prim (binary_normalize 53 1024 u 0 false).

(** Modelled from the spec: [complex_t] (framework/types.hpp) is declared
    outside this file; the spec's complex scalar, a real and an imaginary
    [double]. *)
Record complex_t : Type := Complex { real : double; imag : double }.

Abbreviation cvector_t := (list complex_t) (only parsing).

(** Modelled from the spec: [cmatrix_t] (framework/matrix.hpp) is declared
    outside this file; the spec's dense complex matrix, with its dimensions,
    the number of its entries and the entries. *)
Record cmatrix_t : Type := Matrix {
  rows_ : uint_t;
  cols_ : uint_t;
  size_ : uint_t;
  data_ : list complex_t
}.

(** [mat.size()] *)
Definition mat_size (mat : cmatrix_t) : uint_t := size_ mat.

(** ** Exceptions and outcomes *)

(** [std::invalid_argument] with its message, and the two exceptions of the
    standard library's containers, whose messages are the library's. *)
Inductive exn : Type :=
| invalid_argument (what : string)
| length_error
| bad_alloc.

Inductive outcome (Σ A : Type) : Type :=
| Returns (a : A) (σ : Σ)
| Throws (e : exn) (σ : Σ)
| Undefined.

Arguments Returns {Σ A} a σ.
Arguments Throws {Σ A} e σ.
Arguments Undefined {Σ A}.

(** A method body over an object of type [Σ]. *)
Definition method (Σ A : Type) : Type := Σ → outcome Σ A.

#[export] Instance method_ret {Σ} : MRet (method Σ) :=
  λ A a σ, Returns a σ.

#[export] Instance method_bind {Σ} : MBind (method Σ) :=
  λ A B k c σ,
    match c σ with
    | Returns a σ' => k a σ'
    | Throws e σ' => Throws e σ'
    | Undefined => Undefined
    end.

Definition throw {Σ A} (e : exn) : method Σ A := λ σ, Throws e σ.
Definition undefined_behaviour {Σ A} : method Σ A := λ _, Undefined.
Definition gets {Σ A} (f : Σ → A) : method Σ A := λ σ, Returns (f σ) σ.
Definition modify {Σ} (f : Σ → Σ) : method Σ () := λ σ, Returns () (f σ).

(** [v[i]] with the unchecked [operator[]]. *)
Definition at_index {Σ A} (v : list A) (i : nat) : method Σ A :=
  match v !! i with
  | Some x => mret x
  | None => undefined_behaviour
  end.

(** [if (c) body;] *)
Definition when {Σ} (c : bool) (body : method Σ ()) : method Σ () :=
  if c then body else mret ().

(** [for (i = 0; i < n; i++) body(i);] *)
Fixpoint for_loop {Σ} (from : nat) (n : nat) (body : nat → method Σ ()) : method Σ () :=
  match n with
  | O => mret ()
  | S n' => body from ;; for_loop (S from) n' body
  end.

(** ** Allocations of the standard vector *)

(** What the implementation decides for [std::vector<T>] at one element
    type: [max_size()], and whether the allocator finds room for [n]
    elements. *)
Record vector_limits : Type := mkLimits {
  max_size : uint_t;
  has_room : uint_t → bool
}.

(** [v.reserve(n)] and [v.resize(n)] on an empty vector, as far as they can
    fail: [std::length_error] when [n] exceeds [max_size()], before anything
    is allocated, and [std::bad_alloc] when the allocator finds no room.
    Nothing is allocated for [n = 0]. *)
Definition allocate {Σ} (limits : vector_limits) (n : uint_t) : method Σ () :=
  if decide (max_size limits < n) then throw length_error
  else if bool_decide (n = 0) || has_room limits n then mret ()
  else throw bad_alloc.

(** ** The state object *)

Section StateClass.

Context {MPS ClassicalRegister : Type}.

Record State : Type := mkState {
  qreg_ : MPS;
  creg_ : ClassicalRegister
}.

Definition set_qreg (f : MPS → MPS) (s : State) : State :=
  {| qreg_ := f (qreg_ s); creg_ := creg_ s |}.

(** [qreg_.op(...)] for a [void] operation [op] of the register. *)
Definition on_qreg (f : MPS → MPS) : method State () := modify (set_qreg f).

End StateClass.

Arguments State : clear implicits.

(** ** Enumerations and name tables *)

(** Modelled from the spec: [enum class Gates] is declared in
    matrix_product_state_internal.hpp; its members here are those this file
    names, one per gate of the spec's gate set. *)
Module Gates.
Inductive enum : Type :=
| id | h | x | y | z | s | sdg | sx | t | tdg
| u1 | u2 | u3 | cx | cz | cu1 | swap | mcx.
End Gates.

Module Snapshots.
Inductive enum : Type :=
| statevector | cmemory | cregister
| probs | probs_var | densmat | densmat_var
| expval_pauli | expval_pauli_var | expval_pauli_shot
| expval_matrix | expval_matrix_var | expval_matrix_shot.
End Snapshots.

Module SnapshotDataType.
Inductive enum : Type := average | average_var | pershot.
End SnapshotDataType.

(** Modelled from the spec: [enum class Sample_measure_alg] is declared in
    matrix_product_state_internal.hpp; the spec's three sampling policies
    (apply, prob, heuristic), under the names this file uses. *)
Module Sample_measure_alg.
Inductive enum : Type := APPLY_MEASURE | PROB | HEURISTIC.
End Sample_measure_alg.


(** The snapshot names of [StateOpSet]. *)
Definition StateOpSet_snapshots : list string :=
  ["statevector"; "memory"; "register"; "probabilities";
   "expectation_value_pauli"; "expectation_value_pauli_with_variance";
   "expectation_value_pauli_single_shot"; "expectation_value_matrix";
   "expectation_value_matrix_with_variance";
   "expectation_value_matrix_single_shot";
   "density_matrix"; "density_matrix_with_variance"]%string.

Definition gateset_entries : list (string * Gates.enum) :=
  [("id", Gates.id); ("x", Gates.x); ("y", Gates.y); ("z", Gates.z);
   ("s", Gates.s); ("sdg", Gates.sdg); ("h", Gates.h); ("sx", Gates.sx);
   ("t", Gates.t); ("tdg", Gates.tdg);
   ("p", Gates.u1); ("u1", Gates.u1); ("u2", Gates.u2); ("u3", Gates.u3);
   ("u", Gates.u3); ("U", Gates.u3);
   ("CX", Gates.cx); ("cx", Gates.cx); ("cz", Gates.cz);
   ("cu1", Gates.cu1); ("cp", Gates.cu1); ("swap", Gates.swap);
   ("ccx", Gates.mcx)]%string.

(** [State::gateset_] *)
Definition gateset_ : gmap string Gates.enum := list_to_map gateset_entries.

Definition snapshotset_entries : list (string * Snapshots.enum) :=
  [("statevector", Snapshots.statevector);
   ("probabilities", Snapshots.probs);
   ("expectation_value_pauli", Snapshots.expval_pauli);
   ("expectation_value_matrix", Snapshots.expval_matrix);
   ("probabilities_with_variance", Snapshots.probs_var);
   ("density_matrix", Snapshots.densmat);
   ("density_matrix_with_variance", Snapshots.densmat_var);
   ("expectation_value_pauli_with_variance", Snapshots.expval_pauli_var);
   ("expectation_value_matrix_with_variance", Snapshots.expval_matrix_var);
   ("expectation_value_pauli_single_shot", Snapshots.expval_pauli_shot);
   ("expectation_value_matrix_single_shot", Snapshots.expval_matrix_shot);
   ("memory", Snapshots.cmemory);
   ("register", Snapshots.cregister)]%string.

(** [State::snapshotset_] *)
Definition snapshotset_ : gmap string Snapshots.enum := list_to_map snapshotset_entries.

(** The names [apply_gate] and [apply_snapshot] recognize: the keys of their
    tables. *)
Definition gateset_names : list string := gateset_entries.*1.
Definition snapshotset_names : list string := snapshotset_entries.*1.

(** Modelled from the spec: [Operations::Op] (framework/operations.hpp) is
    declared outside this file; an operation with its name, target qubits
    and parameters, restricted to the fields the methods below read. *)
Record Op : Type := mkOp {
  name : string;
  qubits : reg_t;
  params : cvector_t;
  mats : list cmatrix_t;
  string_params : list string
}.

(** ** Process-wide configuration *)

(** Modelled from the spec: the static members of [MPS_Tensor] and [MPS]
    that [set_config] writes are declared outside this file; the spec's
    process-wide configuration, one field per setting. *)
Record Statics : Type := mkStatics {
  truncation_threshold : double;
  max_bond_dimension : uint_t;
  json_chop_threshold : double;
  omp_threshold : uint_t;
  omp_threads : uint_t;
  sample_measure_alg : Sample_measure_alg.enum
}.

(** The static setters of [MPS_Tensor] and [MPS] are defined in
    matrix_product_state_tensor.hpp and matrix_product_state_internal.hpp.
    The spec calls the settings configured values, set before the
    operations and read-only during an experiment: each setter stores its
    argument. *)

(** Modelled from the spec: [MPS_Tensor::set_truncation_threshold], missing
    here, stores the threshold. *)
Definition set_truncation_threshold (v : double) (g : Statics) : Statics :=
  mkStatics v (max_bond_dimension g) (json_chop_threshold g)
            (omp_threshold g) (omp_threads g) (sample_measure_alg g).

(** Modelled from the spec: [MPS_Tensor::set_max_bond_dimension], missing
    here, stores the bound. *)
Definition set_max_bond_dimension (v : uint_t) (g : Statics) : Statics :=
  mkStatics (truncation_threshold g) v (json_chop_threshold g)
            (omp_threshold g) (omp_threads g) (sample_measure_alg g).

(** Modelled from the spec: [MPS::set_json_chop_threshold], missing here,
    stores the threshold. *)
Definition set_json_chop_threshold (v : double) (g : Statics) : Statics :=
  mkStatics (truncation_threshold g) (max_bond_dimension g) v
            (omp_threshold g) (omp_threads g) (sample_measure_alg g).

(** Modelled from the spec: [MPS::set_omp_threshold], missing here, stores
    the qubit count. *)
Definition set_omp_threshold (v : uint_t) (g : Statics) : Statics :=
  mkStatics (truncation_threshold g) (max_bond_dimension g) (json_chop_threshold g)
            v (omp_threads g) (sample_measure_alg g).

(** Modelled from the spec: [MPS::set_omp_threads], missing here, stores the
    number of threads. *)
Definition set_omp_threads (v : uint_t) (g : Statics) : Statics :=
  mkStatics (truncation_threshold g) (max_bond_dimension g) (json_chop_threshold g)
            (omp_threshold g) v (sample_measure_alg g).

(** Modelled from the spec: [MPS::set_sample_measure_alg], missing here,
    stores the algorithm. *)
Definition set_sample_measure_alg (v : Sample_measure_alg.enum) (g : Statics) : Statics :=
  mkStatics (truncation_threshold g) (max_bond_dimension g) (json_chop_threshold g)
            (omp_threshold g) (omp_threads g) v.

Section SetConfig.

(** [JSON::get_value(var, key, config)] (framework/json.hpp) at the three
    types [set_config] reads: [Some v] when it returns true and stores [v],
    [None] when it returns false (no value under [key]). *)
Context {json_t : Type}.
Variable get_value_double : string → json_t → option double.
Variable get_value_uint : string → json_t → option uint_t.
Variable get_value_string : string → json_t → option string.

Definition set_config (config : json_t) (g : Statics) : Statics :=
  (* Set threshold for truncating Schmidt coefficients *)
  let g :=
    match get_value_double "matrix_product_state_truncation_threshold" config with
    | Some threshold => set_truncation_threshold threshold g
    | None => set_truncation_threshold 1e-16%float g
    end in
  let g :=
    match get_value_uint "matrix_product_state_max_bond_dimension" config with
    | Some max_bond_dimension => set_max_bond_dimension max_bond_dimension g
    | None => set_max_bond_dimension UINT64_MAX g
    end in
  (* Set threshold for truncating snapshots *)
  let g :=
    match get_value_uint "chop_threshold" config with
    | Some json_chop_threshold => set_json_chop_threshold (to_double json_chop_threshold) g
    | None => set_json_chop_threshold 1e-8%float g
    end in
  (* Set OMP num threshold *)
  let g :=
    match get_value_uint "mps_parallel_threshold" config with
    | Some omp_qubit_threshold => set_omp_threshold omp_qubit_threshold g
    | None => set_omp_threshold 14 g
    end in
  (* Set OMP threads *)
  let g :=
    match get_value_uint "mps_omp_threads" config with
    | Some omp_threads => set_omp_threads omp_threads g
    | None => set_omp_threads 1 g
    end in
  (* Set the algorithm for sample measure *)
  match get_value_string "mps_sample_measure_algorithm" config with
  | Some alg =>
      if String.eqb alg "mps_probabilities" then
        set_sample_measure_alg Sample_measure_alg.PROB g
      else if String.eqb alg "mps_apply_measure" then
        set_sample_measure_alg Sample_measure_alg.APPLY_MEASURE g
      else g
  | None => set_sample_measure_alg Sample_measure_alg.HEURISTIC g
  end.

End SetConfig.

(** ** Initialization *)

Section Initialization.

Context {MPS ClassicalRegister : Type}.

(** [qreg_.num_qubits()], [qreg_.initialize(n)] and
    [qreg_.initialize_from_statevector(n, v)]. *)
Variable num_qubits : MPS → uint_t.
Variable initialize : uint_t → MPS → MPS.
Variable initialize_from_statevector : uint_t → cvector_t → MPS → MPS.

Abbreviation State := (State MPS ClassicalRegister).

Definition initialize_qreg (n : uint_t) : method State () :=
  on_qreg (initialize n).

(** [initialize_qreg(uint_t, const matrixproductstate_t &)]; the debug print
    writes to the standard output only. *)
Definition initialize_qreg_mps (n : uint_t) (state : MPS) : method State () :=
  q ← gets qreg_;
  (* Check dimension of state *)
  if decide (num_qubits q ≠ n) then
    throw (invalid_argument
      "MatrixProductState::State::initialize: initial state does not match qubit number")
  else mret ().

(** [reverse_bits] and [reverse_all_bits] are defined in
    matrix_product_state_internal.cpp. The spec says external state vectors
    are bit-reversed on ingest: entry [i] of the result is the entry of the
    argument whose index is [i] with its [len] bits in the opposite order. *)

(** Modelled from the spec: the loop of the missing [reverse_bits]; it moves
    the [len] low bits of [num] onto [acc], lowest bit first. *)
Fixpoint reverse_bits_loop (len : nat) (num acc : uint_t) : uint_t :=
  match len with
  | O => acc
  | S len' => reverse_bits_loop len' (Z.shiftr num 1) (Z.lor (Z.shiftl acc 1) (Z.land num 1))
  end.

(** Modelled from the spec: the missing [reverse_bits(num, len)], the [len]
    low bits of [num] in the opposite order. *)
Definition reverse_bits (num len : uint_t) : uint_t :=
  reverse_bits_loop (Z.to_nat len) num 0.

(** Modelled from the spec: the missing [reverse_all_bits(statevector, len)];
    entry [i] of the result is entry [reverse_bits(i, len)] of the argument,
    read with the unchecked [operator[]]. *)
Definition reverse_all_bits {A} (statevector : list A) (len : uint_t) : option (list A) :=
  mapM (λ i, statevector !! Z.to_nat (reverse_bits i len))
       (seqZ 0 (Z.of_nat (length statevector))).

(** [initialize_qreg(uint_t, const cvector_t &)] *)
Definition initialize_qreg_statevector (n : uint_t) (statevector : cvector_t)
  : method State () :=
  q ← gets qreg_;
  (* Check dimension of state *)
  if decide (num_qubits q ≠ n) then
    throw (invalid_argument
      "MatrixProductState::State::initialize: initial state does not match qubit number")
  else
    (* internal bit ordering is the opposite of ordering in Qasm, so must
       reverse order before starting *)
    match reverse_all_bits statevector n with
    | Some mps_format_state_vector =>
        on_qreg (initialize_from_statevector n mps_format_state_vector)
    | None => undefined_behaviour
    end.

(** [std::sort] on a [reg_t]. *)
Definition sort (l : reg_t) : reg_t := merge_sort Z.le l.

Definition apply_initialize {RngEngine : Type}
    (qubits : reg_t) (params : cvector_t) (rng : RngEngine) : method State () :=
  q ← gets qreg_;
  if decide (Z.of_nat (length qubits) = num_qubits q) then
    (* If qubits is all ordered qubits in the statevector
       we can just initialize the whole state directly *)
    let sorted_qubits := sort qubits in
    if decide (qubits = sorted_qubits) then
      initialize_qreg_statevector (Z.of_nat (length qubits)) params
    else
      (* partial initialization not supported yet *)
      throw (invalid_argument "MPS_State: Partial initialization not supported yet.")
  else
    throw (invalid_argument "MPS_State: Partial initialization not supported yet.").

End Initialization.

(** ** Gates and matrices *)

(** The gate operations of the [MPS] class that [apply_gate] calls. *)
Record mps_gates (MPS : Type) : Type := {
  apply_ccx : reg_t → MPS → MPS;
  apply_u3 : uint_t → double → double → double → MPS → MPS;
  apply_u2 : uint_t → double → double → MPS → MPS;
  apply_u1 : uint_t → double → MPS → MPS;
  apply_cnot : uint_t → uint_t → MPS → MPS;
  apply_x : uint_t → MPS → MPS;
  apply_y : uint_t → MPS → MPS;
  apply_z : uint_t → MPS → MPS;
  apply_h : uint_t → MPS → MPS;
  apply_s : uint_t → MPS → MPS;
  apply_sdg : uint_t → MPS → MPS;
  apply_sx : uint_t → MPS → MPS;
  apply_t : uint_t → MPS → MPS;
  apply_tdg : uint_t → MPS → MPS;
  apply_swap : uint_t → uint_t → bool → MPS → MPS;
  apply_cz : uint_t → uint_t → MPS → MPS;
  apply_cu1 : uint_t → uint_t → double → MPS → MPS
}.

Arguments apply_ccx {MPS} _.
Arguments apply_u3 {MPS} _.
Arguments apply_u2 {MPS} _.
Arguments apply_u1 {MPS} _.
Arguments apply_cnot {MPS} _.
Arguments apply_x {MPS} _.
Arguments apply_y {MPS} _.
Arguments apply_z {MPS} _.
Arguments apply_h {MPS} _.
Arguments apply_s {MPS} _.
Arguments apply_sdg {MPS} _.
Arguments apply_sx {MPS} _.
Arguments apply_t {MPS} _.
Arguments apply_tdg {MPS} _.
Arguments apply_swap {MPS} _.
Arguments apply_cz {MPS} _.
Arguments apply_cu1 {MPS} _.

Section GatesAndMatrices.

Context {MPS ClassicalRegister : Type}.
Variable G : mps_gates MPS.
(** [qreg_.apply_matrix(qubits, mat)] *)
Variable apply_matrix_mps : reg_t → cmatrix_t → MPS → MPS.

Abbreviation State := (State MPS ClassicalRegister).

Definition invalid_gate_instruction (op : Op) : exn :=
  invalid_argument
    ("MatrixProductState::State::invalid gate instruction '" +:+ name op +:+ "'.").

Definition apply_gate (op : Op) : method State () :=
  (* Look for gate name in gateset *)
  match gateset_ !! name op with
  | None => throw (invalid_gate_instruction op)
  | Some it =>
      let qubit i : method State uint_t := at_index (qubits op) i in
      let param i : method State double :=
        c ← at_index (params op) i; mret (real c) in
      match it with
      | Gates.mcx => on_qreg (apply_ccx G (qubits op))
      | Gates.u3 =>
          q0 ← qubit 0%nat; p0 ← param 0%nat; p1 ← param 1%nat; p2 ← param 2%nat;
          on_qreg (apply_u3 G q0 p0 p1 p2)
      | Gates.u2 =>
          q0 ← qubit 0%nat; p0 ← param 0%nat; p1 ← param 1%nat;
          on_qreg (apply_u2 G q0 p0 p1)
      | Gates.u1 =>
          q0 ← qubit 0%nat; p0 ← param 0%nat;
          on_qreg (apply_u1 G q0 p0)
      | Gates.cx =>
          q0 ← qubit 0%nat; q1 ← qubit 1%nat; on_qreg (apply_cnot G q0 q1)
      | Gates.id => mret ()
      | Gates.x => q0 ← qubit 0%nat; on_qreg (apply_x G q0)
      | Gates.y => q0 ← qubit 0%nat; on_qreg (apply_y G q0)
      | Gates.z => q0 ← qubit 0%nat; on_qreg (apply_z G q0)
      | Gates.h => q0 ← qubit 0%nat; on_qreg (apply_h G q0)
      | Gates.s => q0 ← qubit 0%nat; on_qreg (apply_s G q0)
      | Gates.sdg => q0 ← qubit 0%nat; on_qreg (apply_sdg G q0)
      | Gates.sx => q0 ← qubit 0%nat; on_qreg (apply_sx G q0)
      | Gates.t => q0 ← qubit 0%nat; on_qreg (apply_t G q0)
      | Gates.tdg => q0 ← qubit 0%nat; on_qreg (apply_tdg G q0)
      | Gates.swap =>
          q0 ← qubit 0%nat; q1 ← qubit 1%nat; on_qreg (apply_swap G q0 q1 true)
      | Gates.cz =>
          q0 ← qubit 0%nat; q1 ← qubit 1%nat; on_qreg (apply_cz G q0 q1)
      | Gates.cu1 =>
          q0 ← qubit 0%nat; q1 ← qubit 1%nat; p0 ← param 0%nat;
          on_qreg (apply_cu1 G q0 q1 p0)
      end
  end.

(** [apply_matrix(const reg_t &, const cmatrix_t &)] *)
Definition apply_matrix (qubits : reg_t) (mat : cmatrix_t) : method State () :=
  when (bool_decide (qubits ≠ []) && bool_decide (0 < mat_size mat))
       (on_qreg (apply_matrix_mps qubits mat)).

End GatesAndMatrices.

(** ** Measurement, reset and sampling *)

#[export] Instance Sample_measure_alg_eq_dec : EqDecision Sample_measure_alg.enum.
Proof. solve_decision. Defined.

(** The two ways [sample_measure] can draw its samples. *)
Inductive sampler : Type :=
| using_probabilities
| using_apply_measure.

Section Measurement.

Context {MPS ClassicalRegister RngEngine : Type}.

(** [qreg_.apply_measure(qubits, rng)]: the outcomes, with the engine and
    the register as the call leaves them. *)
Variable apply_measure_mps : reg_t → RngEngine → MPS → reg_t * RngEngine * MPS.
(** [qreg_.apply_x(qubit)] *)
Variable apply_x_mps : uint_t → MPS → MPS.
(** [creg_.store_measure(outcome, memory, registers)] *)
Variable store_measure : reg_t → reg_t → reg_t → ClassicalRegister → ClassicalRegister.
(** [MPS temp;] and [temp.initialize(other)] *)
Variable MPS_default : MPS.
Variable initialize_copy : MPS → MPS → MPS.
(** [qreg_.get_max_bond_dimensions()] *)
Variable get_max_bond_dimensions : MPS → uint_t.
(** [rng.rand(a, b)] *)
Variable rand : double → double → RngEngine → double * RngEngine.
(** [qreg_.sample_measure_using_probabilities(rnds, qubits)] *)
Variable sample_measure_using_probabilities_mps : rvector_t → reg_t → MPS → reg_t * MPS.
(** [Utils::int2reg(n, base, minlen)] *)
Variable int2reg : uint_t → uint_t → uint_t → reg_t.
(** [pow] of the C library. *)
Variable pow : double → double → double.
(** The limits of [rvector_t] and of [std::vector<reg_t>]. *)
Variable rvector_limits : vector_limits.
Variable samples_limits : vector_limits.

Abbreviation State := (State MPS ClassicalRegister).

(** [reg_t outcome = qreg_.apply_measure(qubits, rng);] *)
Definition measure_qreg (qubits : reg_t) (rng : RngEngine)
  : method State (reg_t * RngEngine) :=
  λ s, let '(outcome, rng', q') := apply_measure_mps qubits rng (qreg_ s) in
       Returns (outcome, rng') (mkState q' (creg_ s)).

Definition apply_measure (qubits cmemory cregister : reg_t) (rng : RngEngine)
  : method State RngEngine :=
  '(outcome, rng) ← measure_qreg qubits rng;
  modify (λ s, mkState (qreg_ s) (store_measure outcome cmemory cregister (creg_ s)));;
  mret rng.

Definition measure_reset_update (qubits : reg_t) (final_state : uint_t)
    (meas_state : reg_t) : method State () :=
  for_loop 0 (length qubits) (λ i,
    m ← at_index meas_state i;
    if decide (m ≠ final_state) then
      q ← at_index qubits i; on_qreg (apply_x_mps q)
    else mret ()).

Definition apply_reset (qubits : reg_t) (rng : RngEngine) : method State RngEngine :=
  (* Simulate unobserved measurement *)
  '(outcome, rng) ← measure_qreg qubits rng;
  (* Apply update to reset state *)
  measure_reset_update qubits 0 outcome;;
  mret rng.


(** The choice [sample_measure] makes, from the configured algorithm, the
    number of measured qubits, the number of shots and the largest bond
    dimension of the register. *)
Definition sample_measure_strategy (alg : Sample_measure_alg.enum)
    (num_qubits shots max_bond_dim : uint_t) : sampler :=
  if decide (alg = Sample_measure_alg.PROB) then using_probabilities
  else if bool_decide (alg = Sample_measure_alg.APPLY_MEASURE)
          || bool_decide (26 < num_qubits) then using_apply_measure
  else
    let num_qubits_dbl := to_double num_qubits in
    let shots_dbl := to_double shots in
    (* Sample_measure_alg::HEURISTIC *)
    if decide (num_qubits < 10) then using_probabilities
    else if decide (max_bond_dim ≤ 2) then
      if (shots_dbl <? 12.0 * pow 1.85 (num_qubits_dbl - 10.0))%float
      then using_apply_measure else using_probabilities
    else if decide (max_bond_dim ≤ 4) then
      if (shots_dbl <? 3.0 * pow 1.75 (num_qubits_dbl - 10.0))%float
      then using_apply_measure else using_probabilities
    else if decide (max_bond_dim ≤ 8) then
      if (shots_dbl <? 2.5 * pow 1.65 (num_qubits_dbl - 10.0))%float
      then using_apply_measure else using_probabilities
    else if decide (max_bond_dim ≤ 16) then
      if (shots_dbl <? 0.5 * pow 1.75 (num_qubits_dbl - 10.0))%float
      then using_apply_measure else using_probabilities
    else using_probabilities.

(** [for (i = 0; i < shots; ++i) rnds.push_back(rng.rand(0, 1));] *)
Fixpoint draw_rnds (shots : nat) (rng : RngEngine) : rvector_t * RngEngine :=
  match shots with
  | O => ([], rng)
  | S shots' =>
      let '(r, rng) := rand 0 1 rng in
      let '(rnds, rng) := draw_rnds shots' rng in
      (r :: rnds, rng)
  end.

(** The loop variable [int_t val] takes each [uint_t] sample and hands it to
    [int2reg] as a [uint_t] again: the same 64 bits, so [val] is passed as
    it is. [rnds.reserve(shots)] and [all_samples.reserve(shots)] are the two
    allocations that grow with the shots; the [qubits.size()] entries of
    each [sample] are taken to be allocated. *)
Definition sample_measure_using_probabilities (qubits : reg_t) (shots : uint_t)
    (rng : RngEngine) : method State (list reg_t * RngEngine) :=
  (* Generate flat register for storing *)
  allocate rvector_limits shots;;
  let '(rnds, rng) := draw_rnds (Z.to_nat shots) rng in
  allbit_samples ← (λ s,
    let '(samples, q') := sample_measure_using_probabilities_mps rnds qubits (qreg_ s) in
    Returns samples (mkState q' (creg_ s)));
  (* Convert to reg_t format *)
  _ ← allocate samples_limits shots;
  all_samples ← (fix convert (vals : reg_t) : method State (list reg_t) :=
    match vals with
    | [] => mret []
    | val :: vals =>
        let allbit_sample := int2reg val 2 (Z.of_nat (length qubits)) in
        sample ← (fix copy (j n : nat) : method State reg_t :=
          match n with
          | O => mret []
          | S n' => b ← at_index allbit_sample j; bs ← copy (S j) n'; mret (b :: bs)
          end) 0%nat (length qubits);
        samples ← convert vals;
        mret (sample :: samples)
    end) allbit_samples;
  mret (all_samples, rng).

(** The locals of [sample_measure_using_apply_measure]. *)
Record apply_measure_locals : Type := mkLocals {
  temp : MPS;
  all_samples : list reg_t;
  single_result : reg_t;
  rng_ : RngEngine
}.

(** One shot: [temp.initialize(qreg_); single_result = temp.apply_measure(qubits, rng);
    all_samples[i] = single_result;] *)
Definition measure_one_shot (qreg : MPS) (qubits : reg_t) (i : nat)
  : method apply_measure_locals () :=
  modify (λ l,
    let temp := initialize_copy (temp l) qreg in
    let '(single_result, rng, temp) := apply_measure_mps qubits (rng_ l) temp in
    mkLocals temp (<[i := single_result]> (all_samples l)) single_result rng).

(** A [const] method: it reads [qreg_] and works on its locals.
    [all_samples.resize(shots)] allocates the [shots] empty samples. The
    loop counter is an [int_t], and the bound is the shot count cast to
    [int_t]. *)
Definition sample_measure_using_apply_measure (qubits : reg_t) (shots : uint_t)
    (rng : RngEngine) : method State (list reg_t * RngEngine) :=
  allocate samples_limits shots;;
  (λ s,
    let locals := mkLocals MPS_default (replicate (Z.to_nat shots) []) [] rng in
    match for_loop 0 (Z.to_nat (to_int_t shots))
                   (measure_one_shot (qreg_ s) qubits) locals with
    | Returns _ l => Returns (all_samples l, rng_ l) s
    | Throws e _ => Throws e s
    | Undefined => Undefined
    end) : method State (list reg_t * RngEngine).

(** The choice of one call: [g] holds the static configuration that
    [MPS::get_sample_measure_alg()] reads, [num_qubits] is [qubits.size()]. *)
Definition sample_measure_choice (g : Statics) (qubits : reg_t) (shots : uint_t)
    (s : State) : sampler :=
  sample_measure_strategy (sample_measure_alg g)
    (Z.of_nat (length qubits)) shots (get_max_bond_dimensions (qreg_ s)).

Definition sample_measure (g : Statics) (qubits : reg_t) (shots : uint_t)
    (rng : RngEngine) : method State (list reg_t * RngEngine) :=
  λ s,
    match sample_measure_choice g qubits shots s with
    | using_probabilities => sample_measure_using_probabilities qubits shots rng s
    | using_apply_measure => sample_measure_using_apply_measure qubits shots rng s
    end.

End Measurement.

(** ** Snapshots *)

Section Snapshots.

Context {MPS ClassicalRegister ExperimentResult : Type}.

Abbreviation Run := (State MPS ClassicalRegister * ExperimentResult)%type.

(** The snapshot writers; each may read and change the state and adds to
    the experiment result. *)
Variable snapshot_state : Op → string → method Run ().
Variable snapshot_creg_memory : Op → method Run ().
Variable snapshot_creg_register : Op → method Run ().
Variable snapshot_probabilities : Op → SnapshotDataType.enum → method Run ().
Variable snapshot_density_matrix : Op → SnapshotDataType.enum → method Run ().
Variable snapshot_pauli_expval : Op → SnapshotDataType.enum → method Run ().
Variable snapshot_matrix_expval : Op → SnapshotDataType.enum → method Run ().

Definition invalid_snapshot_instruction (op : Op) : exn :=
  invalid_argument
    ("MatrixProductState::invalid snapshot instruction '" +:+ name op +:+ "'.").

Definition apply_snapshot (op : Op) : method Run () :=
  (* Look for snapshot type in snapshotset *)
  match snapshotset_ !! name op with
  | None => throw (invalid_snapshot_instruction op)
  | Some it =>
      match it with
      | Snapshots.statevector => snapshot_state op "statevector"
      | Snapshots.cmemory => snapshot_creg_memory op
      | Snapshots.cregister => snapshot_creg_register op
      | Snapshots.probs => snapshot_probabilities op SnapshotDataType.average
      | Snapshots.densmat => snapshot_density_matrix op SnapshotDataType.average
      | Snapshots.expval_pauli => snapshot_pauli_expval op SnapshotDataType.average
      | Snapshots.expval_matrix => snapshot_matrix_expval op SnapshotDataType.average
      | Snapshots.probs_var => snapshot_probabilities op SnapshotDataType.average_var
      | Snapshots.densmat_var => snapshot_density_matrix op SnapshotDataType.average_var
      | Snapshots.expval_pauli_var => snapshot_pauli_expval op SnapshotDataType.average_var
      | Snapshots.expval_matrix_var => snapshot_matrix_expval op SnapshotDataType.average_var
      | Snapshots.expval_pauli_shot => snapshot_pauli_expval op SnapshotDataType.pershot
      | Snapshots.expval_matrix_shot => snapshot_matrix_expval op SnapshotDataType.pershot
      end
  end.

End Snapshots.

(** ** Index conventions of the state vector *)

(** The index of a basis state in the external (Qasm) order: qubit 0 is the
    least significant bit, [b = Σ bit_k · 2^k]. [bits] lists the value of
    qubit 0 first. *)
Definition external_index (bits : list bool) : Z :=
  foldr (λ b acc, Z.b2z b + 2 * acc) 0 bits.

(** The index of the same basis state in the register's internal order,
    which is the opposite one: qubit 0 is the most significant bit. *)
Definition internal_index (bits : list bool) : Z :=
  foldl (λ acc b, 2 * acc + Z.b2z b) 0 bits.

(** What [apply_reset] is to do after the measurement: an X on each qubit
    whose outcome is 1, in the order of the list. *)
Definition flip_ones {MPS} (apply_x_mps : uint_t → MPS → MPS)
    (measured : list (uint_t * uint_t)) (q : MPS) : MPS :=
  foldl (λ q kb, if decide (kb.2 = 1) then apply_x_mps kb.1 q else q) q measured.

(** [n] shots on a clone: each shot makes [temp] a clone of [qreg] with
    [initialize] and measures that clone, and the engine and the clone go
    from one shot to the next. The register [qreg] is only read. *)
Fixpoint clone_shots {MPS RngEngine}
    (apply_measure_mps : reg_t → RngEngine → MPS → reg_t * RngEngine * MPS)
    (initialize_copy : MPS → MPS → MPS)
    (temp qreg : MPS) (qubits : reg_t) (n : nat) (rng : RngEngine)
  : list reg_t * RngEngine :=
  match n with
  | O => ([], rng)
  | S n' =>
      let '(sample, rng', temp') :=
        apply_measure_mps qubits rng (initialize_copy temp qreg) in
      let '(samples, rng'') :=
        clone_shots apply_measure_mps initialize_copy temp' qreg qubits n' rng' in
      (sample :: samples, rng'')
  end.

(** ** Vectorized matrices and Kraus operators *)

Section VectorsAndKraus.

Context {MPS ClassicalRegister RngEngine : Type}.
(** [qreg_.apply_diagonal_matrix(qubits, vmat)] and
    [qreg_.apply_matrix(qubits, vmat)] on a vectorized matrix. *)
Variable apply_diagonal_matrix_mps : reg_t → cvector_t → MPS → MPS.
Variable apply_matrix_vmat_mps : reg_t → cvector_t → MPS → MPS.
(** [qreg_.apply_kraus(qubits, kmats, rng)] *)
Variable apply_kraus_mps : reg_t → list cmatrix_t → RngEngine → MPS → RngEngine * MPS.

Abbreviation State := (State MPS ClassicalRegister).

(** [apply_matrix(const reg_t &, const cvector_t &)]. [1ULL << n] is
    defined for [n] below the 64 bits of the operand only. *)
Definition apply_matrix_vmat (qubits : reg_t) (vmat : cvector_t) : method State () :=
  if decide (length qubits < 64)%nat then
    (* Check if diagonal matrix *)
    if decide (Z.of_nat (length vmat) = Z.shiftl 1 (Z.of_nat (length qubits))) then
      on_qreg (apply_diagonal_matrix_mps qubits vmat)
    else
      on_qreg (apply_matrix_vmat_mps qubits vmat)
  else undefined_behaviour.

Definition apply_kraus (qubits : reg_t) (kmats : list cmatrix_t) (rng : RngEngine)
  : method State RngEngine :=
  λ s, let '(rng', q') := apply_kraus_mps qubits kmats rng (qreg_ s) in
       Returns rng' (mkState q' (creg_ s)).

End VectorsAndKraus.

(** ** The loop over operations *)

(** Modelled from the spec: [enum class OpType] is declared in
    framework/operations.hpp; its members here are the ten instruction
    kinds this file names (those of [StateOpSet]), and [other] for every
    member it does not name. *)
Module OpType.
Inductive enum : Type :=
| gate | measure | reset | initialize | snapshot
| barrier | bfunc | roerror | matrix | kraus
| other.
End OpType.

Section ApplyOps.

Context {MPS ClassicalRegister RngEngine ExperimentResult : Type}.

(** The fields of [Operations::Op] that only [apply_ops] reads: [op.type],
    [op.memory] and [op.registers]. *)
Variable op_type : Op → OpType.enum.
Variable op_memory : Op → reg_t.
Variable op_registers : Op → reg_t.
(** [creg_.check_conditional(op)], [creg_.apply_bfunc(op)] and
    [creg_.apply_roerror(op, rng)]. *)
Variable check_conditional : Op → ClassicalRegister → bool.
Variable apply_bfunc : Op → ClassicalRegister → ClassicalRegister.
Variable apply_roerror : Op → RngEngine → ClassicalRegister → ClassicalRegister * RngEngine.
(** The operations of the register. *)
Variable num_qubits : MPS → uint_t.
Variable initialize_from_statevector : uint_t → cvector_t → MPS → MPS.
Variable G : mps_gates MPS.
Variable apply_matrix_mps : reg_t → cmatrix_t → MPS → MPS.
Variable apply_measure_mps : reg_t → RngEngine → MPS → reg_t * RngEngine * MPS.
Variable store_measure : reg_t → reg_t → reg_t → ClassicalRegister → ClassicalRegister.
Variable apply_kraus_mps : reg_t → list cmatrix_t → RngEngine → MPS → RngEngine * MPS.
(** The snapshot writers. *)
Variable snapshot_state : Op → string →
  method (State MPS ClassicalRegister * ExperimentResult) ().
Variables snapshot_creg_memory snapshot_creg_register : Op →
  method (State MPS ClassicalRegister * ExperimentResult) ().
Variables snapshot_probabilities snapshot_density_matrix
          snapshot_pauli_expval snapshot_matrix_expval :
  Op → SnapshotDataType.enum →
  method (State MPS ClassicalRegister * ExperimentResult) ().

Abbreviation State := (State MPS ClassicalRegister).

(** What a call of [apply_ops] can change: the state object, the experiment
    result and the random number engine. *)
Record machine : Type := mkMachine {
  state_ : State;
  result_ : ExperimentResult;
  engine_ : RngEngine
}.

(** A method of the state, called from [apply_ops]. *)
Definition on_state {A} (c : method State A) : method machine A :=
  λ m,
    match c (state_ m) with
    | Returns a s => Returns a (mkMachine s (result_ m) (engine_ m))
    | Throws e s => Throws e (mkMachine s (result_ m) (engine_ m))
    | Undefined => Undefined
    end.

(** A method of the state that takes [rng] by reference. *)
Definition with_engine (c : RngEngine → method State RngEngine) : method machine () :=
  λ m,
    match c (engine_ m) (state_ m) with
    | Returns rng s => Returns () (mkMachine s (result_ m) rng)
    | Throws e s => Throws e (mkMachine s (result_ m) (engine_ m))
    | Undefined => Undefined
    end.

(** A method of the state that takes [result] by reference. *)
Definition with_result (c : method (State * ExperimentResult) ()) : method machine () :=
  λ m,
    match c (state_ m, result_ m) with
    | Returns _ r => Returns () (mkMachine r.1 r.2 (engine_ m))
    | Throws e r => Throws e (mkMachine r.1 r.2 (engine_ m))
    | Undefined => Undefined
    end.

Definition invalid_instruction (op : Op) : exn :=
  invalid_argument
    ("MatrixProductState::State::invalid instruction '" +:+ name op +:+ "'.").

(** The body of the loop of [apply_ops], for one operation. *)
Definition apply_op (op : Op) : method machine () :=
  conditional ← gets (λ m, check_conditional op (creg_ (state_ m)));
  if conditional : bool then
    match op_type op with
    | OpType.barrier => mret ()
    | OpType.reset =>
        with_engine (apply_reset apply_measure_mps (apply_x G) (qubits op))
    | OpType.initialize =>
        rng ← gets engine_;
        on_state (apply_initialize num_qubits initialize_from_statevector
                    (qubits op) (params op) rng)
    | OpType.measure =>
        with_engine (apply_measure apply_measure_mps store_measure
                       (qubits op) (op_memory op) (op_registers op))
    | OpType.bfunc =>
        on_state (modify (λ s, mkState (qreg_ s) (apply_bfunc op (creg_ s))))
    | OpType.roerror =>
        with_engine (λ rng s,
          let '(creg, rng') := apply_roerror op rng (creg_ s) in
          Returns rng' (mkState (qreg_ s) creg))
    | OpType.gate => on_state (apply_gate G op)
    | OpType.snapshot =>
        with_result (apply_snapshot snapshot_state snapshot_creg_memory
                       snapshot_creg_register snapshot_probabilities
                       snapshot_density_matrix snapshot_pauli_expval
                       snapshot_matrix_expval op)
    | OpType.matrix =>
        mat ← at_index (mats op) 0;
        on_state (apply_matrix apply_matrix_mps (qubits op) mat)
    | OpType.kraus =>
        with_engine (apply_kraus apply_kraus_mps (qubits op) (mats op))
    | OpType.other => throw (invalid_instruction op)
    end
  else mret ().

(** [apply_ops]: a simple loop over the vector of operations. The flag
    [final_ops] is not read. *)
Fixpoint apply_ops (ops : list Op) : method machine () :=
  match ops with
  | [] => mret ()
  | op :: ops => apply_op op ;; apply_ops ops
  end.

End ApplyOps.

Arguments machine : clear implicits.
Arguments mkMachine {MPS ClassicalRegister RngEngine ExperimentResult} _ _ _.
Arguments state_ {MPS ClassicalRegister RngEngine ExperimentResult} _.
Arguments result_ {MPS ClassicalRegister RngEngine ExperimentResult} _.
Arguments engine_ {MPS ClassicalRegister RngEngine ExperimentResult} _.

(** ** The snapshot writers of this file *)

Section SnapshotWriters.

Context {MPS ClassicalRegister ExperimentResult ket : Type}.

(** The fields [op.params_expval_pauli] and [op.params_expval_matrix] of
    [Operations::Op]. *)
Variable params_expval_pauli : Op → list (complex_t * string).
Variable params_expval_matrix : Op → list (complex_t * list (reg_t * cmatrix_t)).
(** The observers of the register, each with the register as it leaves it:
    [expectation_value_pauli], [expectation_value], [full_state_vector],
    [density_matrix] and [norm]; [get_probabilities_vector] is also called
    from the [const] method [measure_probs]. *)
Variable expectation_value_pauli : reg_t → string → MPS → complex_t * MPS.
Variable expectation_value : reg_t → cmatrix_t → MPS → double * MPS.
Variable full_state_vector : MPS → cvector_t * MPS.
Variable get_probabilities_vector : reg_t → MPS → rvector_t.
Variable density_matrix : reg_t → MPS → cmatrix_t * MPS.
Variable norm : MPS → double * MPS.
(** Complex arithmetic: [a + b], [a * b] and [a * x] for a [double] [x]. *)
Variable complex_add : complex_t → complex_t → complex_t.
Variable complex_mul : complex_t → complex_t → complex_t.
Variable complex_scale : complex_t → double → complex_t.
(** [Utils::chop_inplace] and [Utils::vec2ket]. *)
Variable chop_inplace : complex_t → double → complex_t.
Variable vec2ket : rvector_t → double → uint_t → ket.
(** [creg_.memory_hex()] *)
Variable memory_hex : ClassicalRegister → string.
(** [result.data.add_average_snapshot(type, label, memory, datum, variance)]
    and [result.data.add_pershot_snapshot(type, label, datum)], at the types
    of data this file records. *)
Variable add_average_snapshot_complex :
  string → string → string → complex_t → bool → ExperimentResult → ExperimentResult.
Variable add_pershot_snapshot_complex :
  string → string → complex_t → ExperimentResult → ExperimentResult.
Variable add_pershot_snapshot_cvector :
  string → string → cvector_t → ExperimentResult → ExperimentResult.
Variable add_average_snapshot_ket :
  string → string → string → ket → bool → ExperimentResult → ExperimentResult.
Variable add_average_snapshot_cmatrix :
  string → string → string → cmatrix_t → bool → ExperimentResult → ExperimentResult.
Variable add_pershot_snapshot_cmatrix :
  string → string → cmatrix_t → ExperimentResult → ExperimentResult.
(** The snapshots of the classical register, of the base class. *)
Variables snapshot_creg_memory snapshot_creg_register : Op →
  method (State MPS ClassicalRegister * ExperimentResult) ().
(** The static configuration, for [MPS::get_json_chop_threshold()]. *)
Variable g : Statics.

Abbreviation Run := (State MPS ClassicalRegister * ExperimentResult)%type.

(** An observer of the register, called on [qreg_]. *)
Definition observe {A} (f : MPS → A * MPS) : method Run A :=
  λ r, let '(a, q') := f (qreg_ r.1) in Returns a (mkState q' (creg_ r.1), r.2).

(** [result.data.add_...(...)] *)
Definition record (f : ExperimentResult → ExperimentResult) : method Run () :=
  modify (λ r, (r.1, f r.2)).

(** The end of both expectation-value snapshots: the switch on the type. *)
Definition add_expval (op : Op) (expval : complex_t) (type : SnapshotDataType.enum)
  : method Run () :=
  label ← at_index (string_params op) 0;
  match type with
  | SnapshotDataType.average =>
      memory ← gets (λ r : Run, memory_hex (creg_ r.1));
      record (add_average_snapshot_complex "expectation_value" label memory expval false)
  | SnapshotDataType.average_var =>
      memory ← gets (λ r : Run, memory_hex (creg_ r.1));
      record (add_average_snapshot_complex "expectation_value" label memory expval true)
  | SnapshotDataType.pershot =>
      record (add_pershot_snapshot_complex "expectation_values" label expval)
  end.

(** The loop over [op.params_expval_pauli]: [expval += coeff * pauli_expval]. *)
Fixpoint pauli_components (op : Op) (l : list (complex_t * string))
    (expval : complex_t) : method Run complex_t :=
  match l with
  | [] => mret expval
  | param :: l =>
      let coeff := param.1 in
      let pauli_matrices := param.2 in
      pauli_expval ← observe (expectation_value_pauli (qubits op) pauli_matrices);
      pauli_components op l (complex_add expval (complex_mul coeff pauli_expval))
  end.

Definition snapshot_pauli_expval (op : Op) (type : SnapshotDataType.enum)
  : method Run () :=
  if decide (params_expval_pauli op = []) then
    throw (invalid_argument "Invalid expval snapshot (Pauli components are empty).")
  else
    (* Compute expval components *)
    expval ← pauli_components op (params_expval_pauli op) (Complex 0 0);
    (* add to snapshot *)
    add_expval op (chop_inplace expval (json_chop_threshold g)) type.

(** [sub_qubits.push_back(op.qubits[pos])] for each [pos]. *)
Fixpoint sub_qubits_of (op : Op) (positions : reg_t) : method Run reg_t :=
  match positions with
  | [] => mret []
  | pos :: positions =>
      q ← at_index (qubits op) (Z.to_nat pos);
      qs ← sub_qubits_of op positions;
      mret (q :: qs)
  end.

(** The inner loop over [param.second]: [expval += coeff * one_expval]. *)
Fixpoint matrix_terms (op : Op) (coeff : complex_t) (pairs : list (reg_t * cmatrix_t))
    (expval : complex_t) : method Run complex_t :=
  match pairs with
  | [] => mret expval
  | pair_ :: pairs =>
      sub_qubits ← sub_qubits_of op pair_.1;
      let mat := pair_.2 in
      one_expval ← observe (expectation_value sub_qubits mat);
      matrix_terms op coeff pairs (complex_add expval (complex_scale coeff one_expval))
  end.

(** The loop over [op.params_expval_matrix]. *)
Fixpoint matrix_components (op : Op) (l : list (complex_t * list (reg_t * cmatrix_t)))
    (expval : complex_t) : method Run complex_t :=
  match l with
  | [] => mret expval
  | param :: l =>
      let coeff := param.1 in
      expval ← matrix_terms op coeff param.2 expval;
      matrix_components op l expval
  end.

Definition snapshot_matrix_expval (op : Op) (type : SnapshotDataType.enum)
  : method Run () :=
  if decide (params_expval_matrix op = []) then
    throw (invalid_argument "Invalid matrix snapshot (components are empty).")
  else
    expval ← matrix_components op (params_expval_matrix op) (Complex 0 0);
    (* add to snapshot *)
    add_expval op (chop_inplace expval (json_chop_threshold g)) type.

(** The parameter [name] is not read. *)
Definition snapshot_state (op : Op) (name : string) : method Run () :=
  statevector ← observe full_state_vector;
  label ← at_index (string_params op) 0;
  record (add_pershot_snapshot_cvector "statevector" label statevector).

Definition snapshot_probabilities (op : Op) (type : SnapshotDataType.enum)
  : method Run () :=
  prob_vector ← gets (λ r : Run, get_probabilities_vector (qubits op) (qreg_ r.1));
  let probs := vec2ket prob_vector (json_chop_threshold g) 16 in
  let variance :=
    match type with SnapshotDataType.average_var => true | _ => false end in
  label ← at_index (string_params op) 0;
  memory ← gets (λ r : Run, memory_hex (creg_ r.1));
  record (add_average_snapshot_ket "probabilities" label memory probs variance).

Definition snapshot_density_matrix (op : Op) (type : SnapshotDataType.enum)
  : method Run () :=
  reduced_state ←
    (if decide (qubits op = []) then
       n ← observe norm; mret (Matrix 1 1 1 [Complex n 0])
     else observe (density_matrix (qubits op)));
  (* Add density matrix to result data *)
  label ← at_index (string_params op) 0;
  match type with
  | SnapshotDataType.average =>
      memory ← gets (λ r : Run, memory_hex (creg_ r.1));
      record (add_average_snapshot_cmatrix "density_matrix" label memory reduced_state false)
  | SnapshotDataType.average_var =>
      memory ← gets (λ r : Run, memory_hex (creg_ r.1));
      record (add_average_snapshot_cmatrix "density_matrix" label memory reduced_state true)
  | SnapshotDataType.pershot =>
      record (add_pershot_snapshot_cmatrix "density_matrix" label reduced_state)
  end.

(** [apply_snapshot] with the writers of this file in their places. *)
Definition apply_snapshot_op (op : Op) : method Run () :=
  apply_snapshot snapshot_state snapshot_creg_memory snapshot_creg_register
    snapshot_probabilities snapshot_density_matrix
    snapshot_pauli_expval snapshot_matrix_expval op.

End SnapshotWriters.

(** ** What the properties below speak of *)

(** The qubits and parameters [apply_gate] reads with [operator[]] for each
    gate: [qubits[0..n-1]] and [params[0..p-1]]. The Toffoli gate hands the
    whole list of qubits to the register. *)
Definition gate_arity (g : Gates.enum) : nat * nat :=
  match g with
  | Gates.id | Gates.mcx => (0, 0)
  | Gates.u3 => (1, 3)
  | Gates.u2 => (1, 2)
  | Gates.u1 => (1, 1)
  | Gates.cx | Gates.cz | Gates.swap => (2, 0)
  | Gates.cu1 => (2, 1)
  | _ => (1, 0)
  end%nat.

(** The same operation under another name. *)
Definition rename (n : string) (op : Op) : Op :=
  mkOp n (qubits op) (params op) (mats op) (string_params op).

(** [n] shots, each a measurement of the register [qreg] itself, the engine
    going from one shot to the next. *)
Fixpoint measure_clones {MPS RngEngine}
    (apply_measure_mps : reg_t → RngEngine → MPS → reg_t * RngEngine * MPS)
    (qreg : MPS) (qubits : reg_t) (n : nat) (rng : RngEngine)
  : list reg_t * RngEngine :=
  match n with
  | O => ([], rng)
  | S n' =>
      let '(sample, rng', _) := apply_measure_mps qubits rng qreg in
      let '(samples, rng'') := measure_clones apply_measure_mps qreg qubits n' rng' in
      (sample :: samples, rng'')
  end.

(** An X on each measured qubit whose outcome is not [final_state], in the
    order of the list. *)
Definition flip_to {MPS} (apply_x_mps : uint_t → MPS → MPS) (final_state : uint_t)
    (measured : list (uint_t * uint_t)) (q : MPS) : MPS :=
  foldl (λ q kb, if decide (kb.2 ≠ final_state) then apply_x_mps kb.1 q else q)
        q measured.


(** ** Small registers and readers to run the methods on *)

(** [pow] at a small whole exponent: [x] multiplied [y] times. *)
Fixpoint pow_repeated_loop (fuel : nat) (x y : double) : double :=
  match fuel with
  | O => 1%float
  | S fuel' =>
      if (y <=? 0)%float then 1%float
      else (x * pow_repeated_loop fuel' x (y - 1))%float
  end.

Definition pow_repeated (x y : double) : double := pow_repeated_loop 64 x y.

(** A JSON object as a finite map from its keys to numbers and strings. *)
Inductive json_value : Type :=
| json_float (v : double)
| json_unsigned (v : uint_t)
| json_string (v : string).

Definition json_get_double (key : string) (js : gmap string json_value) : option double :=
  match js !! key with
  | Some (json_float v) => Some v
  | Some (json_unsigned v) => Some (to_double v)
  | _ => None
  end.

Definition json_get_uint (key : string) (js : gmap string json_value) : option uint_t :=
  match js !! key with
  | Some (json_unsigned v) => Some v
  | _ => None
  end.

Definition json_get_string (key : string) (js : gmap string json_value) : option string :=
  match js !! key with
  | Some (json_string v) => Some v
  | _ => None
  end.

(** A register that only records the operations applied to it. *)
Definition record_call (what : string) (log : list string) : list string :=
  log ++ [what].

Definition spy_gates : mps_gates (list string) := {|
  apply_ccx := λ _ log, record_call "ccx" log;
  apply_u3 := λ _ _ _ _ log, record_call "u3" log;
  apply_u2 := λ _ _ _ log, record_call "u2" log;
  apply_u1 := λ _ _ log, record_call "u1" log;
  apply_cnot := λ _ _ log, record_call "cnot" log;
  apply_x := λ _ log, record_call "x" log;
  apply_y := λ _ log, record_call "y" log;
  apply_z := λ _ log, record_call "z" log;
  apply_h := λ _ log, record_call "h" log;
  apply_s := λ _ log, record_call "s" log;
  apply_sdg := λ _ log, record_call "sdg" log;
  apply_sx := λ _ log, record_call "sx" log;
  apply_t := λ _ log, record_call "t" log;
  apply_tdg := λ _ log, record_call "tdg" log;
  apply_swap := λ _ _ _ log, record_call "swap" log;
  apply_cz := λ _ _ log, record_call "cz" log;
  apply_cu1 := λ _ _ _ log, record_call "cu1" log
|}%string.

Definition spy_apply_matrix (qubits : reg_t) (mat : cmatrix_t) (log : list string)
  : list string := record_call "matrix" log.

Definition spy_snapshot (what : string)
  : method (State (list string) () * list string) () :=
  modify (λ r, (r.1, record_call what r.2)).

(** A register held as its dense vector of amplitudes in internal order. *)
Definition dense_num_qubits (v : cvector_t) : uint_t := Z.log2 (Z.of_nat (length v)).

Definition dense_initialize_from_statevector (n : uint_t) (v : cvector_t)
    (old : cvector_t) : cvector_t := v.

Definition amplitude (re : double) : complex_t := Complex re 0.

(** A register in a computational basis state: the value of each qubit.
    Measuring reads the values; nothing is random. *)
Definition basis_apply_measure (qubits : reg_t) (rng : ()) (q : Z → bool)
  : reg_t * () * (Z → bool) :=
  ((λ k, Z.b2z (q k)) <$> qubits, rng, q).

Definition basis_apply_x (k : uint_t) (q : Z → bool) : Z → bool :=
  λ j, if decide (j = k) then negb (q j) else q j.

(** A basis state is a product state: every bond has dimension 1. *)
Definition basis_get_max_bond_dimensions (q : Z → bool) : uint_t := 1.

Definition basis_qubit_is (q : Z → bool) (k : uint_t) (b : uint_t) : Prop :=
  Z.b2z (q k) = b.

(** A small machine: no vector has more than 1000 elements, and there is
    room for 100. *)
Definition small_limits : vector_limits := mkLimits 1000 (λ n, bool_decide (n ≤ 100)).

(** The basis-state register under the probability sampler: an engine that
    always draws one half, a register that answers every random number with
    the value its measured qubits spell (the first qubit of the list
    lowest), and the digits of a number, lowest first, as many as asked
    for. *)
Definition fixed_rand (a b : double) (rng : ()) : double * () := (0.5%float, rng).

Definition basis_sample_using_probabilities (rnds : rvector_t) (qubits : reg_t)
    (q : Z → bool) : reg_t * (Z → bool) :=
  ((λ _, external_index (q <$> qubits)) <$> rnds, q).

Definition digits (n base minlen : uint_t) : reg_t :=
  (λ i, (n / base ^ i) mod base) <$> seqZ 0 minlen.

(** The spy register under the snapshot writers: every observer answers
    with a constant and leaves the log alone, and the result is the list of
    the labels recorded. *)
Definition spy_complex_add (a b : complex_t) : complex_t :=
  Complex (real a + real b) (imag a + imag b).

Definition spy_complex_mul (a b : complex_t) : complex_t :=
  Complex (real a * real b - imag a * imag b) (real a * imag b + imag a * real b).

Definition spy_complex_scale (a : complex_t) (x : double) : complex_t :=
  Complex (real a * x) (imag a * x).

Definition spy_apply_snapshot_op (pauli : list (complex_t * string))
    (matrix : list (complex_t * list (reg_t * cmatrix_t))) (op : Op)
  : method (State (list string) () * list string) () :=
  apply_snapshot_op (ket := rvector_t) (λ _, pauli) (λ _, matrix)
    (λ _ _ log, (amplitude 1, log)) (λ _ _ log, (1%float, log))
    (λ log, ([amplitude 1], log)) (λ _ _, [1%float])
    (λ _ log, (Matrix 1 1 1 [amplitude 1], log)) (λ log, (1%float, log))
    spy_complex_add spy_complex_mul spy_complex_scale
    (λ a _, a) (λ v _ _, v) (λ _, "0x0"%string)
    (λ _ label _ _ _, record_call label) (λ _ label _, record_call label)
    (λ _ label _, record_call label) (λ _ label _ _ _, record_call label)
    (λ _ label _ _ _, record_call label) (λ _ label _, record_call label)
    (λ _, spy_snapshot "memory") (λ _, spy_snapshot "register")
    (mkStatics 1e-16 UINT64_MAX 1e-8 14 1 Sample_measure_alg.HEURISTIC) op.

(** The spy register under [apply_ops]: an operation is a barrier or of no
    supported kind by its name, a matrix when it carries one, and a gate
    otherwise; it is conditional on its label not being "never". *)
Definition spy_op_type (op : Op) : OpType.enum :=
  if decide (name op = "barrier"%string) then OpType.barrier
  else if decide (name op = "nop"%string) then OpType.other
  else if decide (mats op = []) then OpType.gate
  else OpType.matrix.

Definition spy_check_conditional (op : Op) (creg : ()) : bool :=
  bool_decide (string_params op ≠ ["never"%string]).

Definition spy_apply_ops (ops : list Op)
  : method (machine (list string) () () (list string)) () :=
  apply_ops spy_op_type (λ _, []) (λ _, []) spy_check_conditional
    (λ _ creg, creg) (λ _ rng creg, (creg, rng))
    (λ _, 2) (λ _ _, record_call "initialize_from_statevector") spy_gates
    spy_apply_matrix
    (λ qubits rng log, (const 0 <$> qubits, rng, record_call "measure" log))
    (λ _ _ _ creg, creg)
    (λ _ _ rng log, (rng, record_call "kraus" log))
    (λ _, spy_snapshot) (λ _, spy_snapshot "memory")
    (λ _, spy_snapshot "register") (λ _ _, spy_snapshot "probabilities")
    (λ _ _, spy_snapshot "density_matrix") (λ _ _, spy_snapshot "pauli")
    (λ _ _, spy_snapshot "matrix") ops.

(** * Properties *)

(** ** Initialization from another register (C8) and dense matrices (C10) *)

Section CopyAndMatrixProperties.

Context {MPS ClassicalRegister : Type}.
Variable num_qubits : MPS → uint_t.
Variable apply_matrix_mps : reg_t → cmatrix_t → MPS → MPS.
Implicit Type s : State MPS ClassicalRegister.

(** C8: [initialize_qreg(num_qubits, state)] with another MPS throws the
    dimension diagnostic when [num_qubits] differs from the register's
    qubit count; when the counts match it returns and leaves the state as
    it was, whatever the given MPS is: nothing is copied. *)
Theorem initialize_qreg_mps_does_not_copy (n : uint_t) (state : MPS) s :
  (num_qubits (qreg_ s) ≠ n →
     initialize_qreg_mps num_qubits n state s =
       Throws (invalid_argument
         "MatrixProductState::State::initialize: initial state does not match qubit number") s)
  ∧ (num_qubits (qreg_ s) = n →
     initialize_qreg_mps num_qubits n state s = Returns () s).
Proof.
  unfold initialize_qreg_mps, gets, mbind, method_bind, throw, mret, method_ret.
  split; intros Hn; case_decide; congruence.
Qed.

(** C10: with an empty qubit list or an empty matrix, [apply_matrix]
    returns normally and the state is unchanged. *)
Theorem apply_matrix_empty_is_noop (qubits : reg_t) (mat : cmatrix_t) s :
  qubits = [] ∨ mat_size mat = 0 →
  apply_matrix apply_matrix_mps qubits mat s = Returns () s.
Proof.
  intros Hempty. unfold apply_matrix, when.
  destruct Hempty as [-> | Hsize].
  - reflexivity.
  - rewrite Hsize, andb_false_r. reflexivity.
Qed.

(** With a non-empty list and a non-empty matrix the register operation
    runs. *)
Lemma apply_matrix_applies (qubits : reg_t) (mat : cmatrix_t) s :
  qubits ≠ [] → 0 < mat_size mat →
  apply_matrix apply_matrix_mps qubits mat s =
    Returns () (set_qreg (apply_matrix_mps qubits mat) s).
Proof.
  intros Hq Hm. unfold apply_matrix, when.
  rewrite !bool_decide_eq_true_2 by done. reflexivity.
Qed.

End CopyAndMatrixProperties.

(** A one-qubit register in |0>, asked to take over one in |1>. *)
Lemma initialize_qreg_mps_does_not_copy_run :
  let zero := mkState [amplitude 1; amplitude 0] () in
  let one := [amplitude 0; amplitude 1] in
  initialize_qreg_mps dense_num_qubits 2 one zero =
    Throws (invalid_argument
      "MatrixProductState::State::initialize: initial state does not match qubit number") zero
  ∧ initialize_qreg_mps dense_num_qubits 1 one zero = Returns () zero.
Proof.
  intros zero one. split.
  - apply (initialize_qreg_mps_does_not_copy dense_num_qubits 2 one zero).
    vm_compute. discriminate.
  - apply (initialize_qreg_mps_does_not_copy dense_num_qubits 1 one zero).
    reflexivity.
Defined.

(** The spy register sees no call for an empty matrix or an empty list. *)
Lemma apply_matrix_empty_is_noop_run :
  let s := mkState ([] : list string) () in
  apply_matrix spy_apply_matrix [0; 1] (Matrix 0 0 0 []) s = Returns () s
  ∧ apply_matrix spy_apply_matrix [] (Matrix 2 2 4 (replicate 4 (amplitude 1))) s
    = Returns () s.
Proof.
  intros s. split.
  - apply (apply_matrix_empty_is_noop spy_apply_matrix). right. reflexivity.
  - apply (apply_matrix_empty_is_noop spy_apply_matrix). left. reflexivity.
Defined.

(** ** Unknown gate and snapshot names (C4) *)


(** The snapshot table has a key for every snapshot name of [StateOpSet],
    and one more. *)
Lemma snapshotset_names_StateOpSet (n : string) :
  n ∈ snapshotset_names ↔
  n ∈ StateOpSet_snapshots ∨ n = "probabilities_with_variance"%string.
Proof.
  assert (Heq : (list_to_set snapshotset_names : gset string) =
                list_to_set ("probabilities_with_variance"%string :: StateOpSet_snapshots))
    by (vm_compute; reflexivity).
  rewrite <- (elem_of_list_to_set (C := gset string) n snapshotset_names), Heq.
  rewrite elem_of_list_to_set, elem_of_cons. tauto.
Qed.

Lemma gateset_lookup_None (n : string) : n ∉ gateset_names → gateset_ !! n = None.
Proof. apply not_elem_of_list_to_map_1. Qed.

Lemma snapshotset_lookup_None (n : string) :
  n ∉ snapshotset_names → snapshotset_ !! n = None.
Proof. apply not_elem_of_list_to_map_1. Qed.


Section UnknownNames.

Context {MPS ClassicalRegister ExperimentResult : Type}.
Variable G : mps_gates MPS.
Variable snapshot_state : Op → string →
  method (State MPS ClassicalRegister * ExperimentResult) ().
Variables snapshot_creg_memory snapshot_creg_register : Op →
  method (State MPS ClassicalRegister * ExperimentResult) ().
Variables snapshot_probabilities snapshot_density_matrix
          snapshot_pauli_expval snapshot_matrix_expval :
  Op → SnapshotDataType.enum →
  method (State MPS ClassicalRegister * ExperimentResult) ().

(** C4: a gate whose name is not a key of the gate table makes [apply_gate]
    throw [std::invalid_argument] with a message that quotes the name, and
    a snapshot whose name is not a key of the snapshot table makes
    [apply_snapshot] throw [std::invalid_argument] with a message that quotes
    the name; the state (and the experiment result) are as before the
    call. *)
Theorem unknown_name_is_rejected (op : Op) (s : State MPS ClassicalRegister)
    (result : ExperimentResult) :
  (name op ∉ gateset_names →
     apply_gate G op s =
       Throws (invalid_argument
         ("MatrixProductState::State::invalid gate instruction '"
            +:+ name op +:+ "'.")) s)
  ∧ (name op ∉ snapshotset_names →
     apply_snapshot snapshot_state snapshot_creg_memory snapshot_creg_register
         snapshot_probabilities snapshot_density_matrix
         snapshot_pauli_expval snapshot_matrix_expval op (s, result) =
       Throws (invalid_argument
         ("MatrixProductState::invalid snapshot instruction '"
            +:+ name op +:+ "'.")) (s, result)).
Proof.
  split; intros Hname.
  - unfold apply_gate. rewrite (gateset_lookup_None _ Hname). reflexivity.
  - unfold apply_snapshot. rewrite (snapshotset_lookup_None _ Hname). reflexivity.
Qed.

(** A name of the table is not rejected by the lookup: [id] returns at
    once. *)
Lemma apply_gate_id (op : Op) (s : State MPS ClassicalRegister) :
  name op = "id"%string → apply_gate G op s = Returns () s.
Proof. intros Hname. unfold apply_gate. rewrite Hname. reflexivity. Qed.

End UnknownNames.

(** The spy register on a gate and a snapshot that do not exist. *)
Lemma unknown_name_is_rejected_run :
  let op := mkOp "cy" [0; 1] [] [] [] in
  let s := mkState ([] : list string) () in
  apply_gate spy_gates op s =
    Throws (invalid_argument
      "MatrixProductState::State::invalid gate instruction 'cy'.") s
  ∧ apply_snapshot (λ _, spy_snapshot) (λ _, spy_snapshot "memory")
      (λ _, spy_snapshot "register") (λ _ _, spy_snapshot "probabilities")
      (λ _ _, spy_snapshot "density_matrix") (λ _ _, spy_snapshot "pauli")
      (λ _ _, spy_snapshot "matrix") op (s, []) =
    Throws (invalid_argument
      "MatrixProductState::invalid snapshot instruction 'cy'.") (s, []).
Proof.
  intros op s.
  pose proof (unknown_name_is_rejected spy_gates (λ _, spy_snapshot)
    (λ _, spy_snapshot "memory") (λ _, spy_snapshot "register")
    (λ _ _, spy_snapshot "probabilities") (λ _ _, spy_snapshot "density_matrix")
    (λ _ _, spy_snapshot "pauli") (λ _ _, spy_snapshot "matrix") op s [])
    as [Hgate Hsnap].
  split.
  - apply Hgate. apply (bool_decide_unpack _). vm_compute. exact I.
  - apply Hsnap. apply (bool_decide_unpack _). vm_compute. exact I.
Defined.

(** ** Partial and unordered initialization (C5, C9, X22) *)

Lemma sort_Sorted (l : reg_t) : StronglySorted Z.le (sort l).
Proof. apply StronglySorted_merge_sort; apply _. Qed.

Lemma StronglySorted_le_NoDup (l : reg_t) :
  StronglySorted Z.le l → NoDup l → Sorted Z.lt l.
Proof.
  induction 1 as [|x l Hl IH Hx]; intros Hnd; [constructor|].
  inversion_clear Hnd as [|? ? Hnotin Hnd'].
  constructor; [by apply IH|].
  destruct l as [|y l]; constructor.
  apply Forall_cons in Hx as [Hxy _].
  assert (x ≠ y) by (intros ->; apply Hnotin; left).
  lia.
Qed.

(** Distinct qubits of an [n]-qubit register are at most [n] many, and
    exactly [n] many only when every qubit of the register is among them. *)
Lemma qubit_subset_length (n : Z) (qubits : reg_t) :
  NoDup qubits → (∀ q, q ∈ qubits → 0 ≤ q < n) →
  (length qubits ≤ Z.to_nat n)%nat
  ∧ (length qubits = Z.to_nat n → ∀ q, 0 ≤ q < n → q ∈ qubits).
Proof.
  intros Hnd Hrange.
  assert (Hsub : qubits ⊆+ seqZ 0 n).
  { apply NoDup_submseteq; [done|]. intros q Hq. apply elem_of_seqZ. specialize (Hrange q Hq). lia. }
  split.
  - apply submseteq_length in Hsub. by rewrite length_seqZ in Hsub.
  - intros Hlen q Hq.
    assert (Hperm : qubits ≡ₚ seqZ 0 n).
    { apply submseteq_length_Permutation; [done|]. rewrite length_seqZ. lia. }
    rewrite Hperm. apply elem_of_seqZ. lia.
Qed.

Section InitializeProperties.

Context {MPS ClassicalRegister RngEngine : Type}.
Variable num_qubits : MPS → uint_t.
Variable initialize_from_statevector : uint_t → cvector_t → MPS → MPS.
Implicit Type s : State MPS ClassicalRegister.

Local Abbreviation partial_initialization_error :=
  (invalid_argument "MPS_State: Partial initialization not supported yet.").

(** The two ways out of [apply_initialize]. *)
Lemma apply_initialize_cases (qubits : reg_t) (params : cvector_t) (rng : RngEngine) s :
  (Z.of_nat (length qubits) = num_qubits (qreg_ s) ∧ qubits = sort qubits ∧
     apply_initialize num_qubits initialize_from_statevector qubits params rng s =
       initialize_qreg_statevector num_qubits initialize_from_statevector
         (Z.of_nat (length qubits)) params s)
  ∨ ((Z.of_nat (length qubits) ≠ num_qubits (qreg_ s) ∨ qubits ≠ sort qubits) ∧
     apply_initialize num_qubits initialize_from_statevector qubits params rng s = Throws partial_initialization_error s).
Proof.
  unfold apply_initialize, gets, mbind, method_bind, throw.
  repeat case_decide; intuition.
Qed.

(** The full-register path does not end in the partial-initialization
    error: the dimension check of [initialize_qreg] passes. *)
Lemma initialize_qreg_statevector_not_partial (n : uint_t) (params : cvector_t) s :
  initialize_qreg_statevector num_qubits initialize_from_statevector n params s ≠ Throws partial_initialization_error s.
Proof.
  unfold initialize_qreg_statevector, gets, mbind, method_bind, throw.
  case_decide; [discriminate|].
  destruct (reverse_all_bits params n); unfold on_qreg, modify, undefined_behaviour;
    discriminate.
Qed.

(** X22: when [qubits] is a proper subset of the register's qubits (distinct
    qubits of the register, and not all of them), [apply_initialize] throws
    the "not supported" diagnostic and leaves the state as it was; and for
    distinct qubits of the register, whenever the call does not end in that
    diagnostic it is the full-register initialization that runs and
    [qubits] holds every qubit of the register. *)
Theorem apply_initialize_partial_not_supported
    (qubits : reg_t) (params : cvector_t) (rng : RngEngine) s :
  NoDup qubits →
  (∀ q, q ∈ qubits → 0 ≤ q < num_qubits (qreg_ s)) →
  ((∃ q, 0 ≤ q < num_qubits (qreg_ s) ∧ q ∉ qubits) →
     apply_initialize num_qubits initialize_from_statevector qubits params rng s = Throws partial_initialization_error s)
  ∧ (apply_initialize num_qubits initialize_from_statevector qubits params rng s ≠ Throws partial_initialization_error s →
     (∀ q, 0 ≤ q < num_qubits (qreg_ s) → q ∈ qubits)
     ∧ apply_initialize num_qubits initialize_from_statevector qubits params rng s =
         initialize_qreg_statevector num_qubits initialize_from_statevector
         (Z.of_nat (length qubits)) params s).
Proof.
  intros Hnd Hrange.
  destruct (qubit_subset_length _ _ Hnd Hrange) as [_ Hall].
  destruct (apply_initialize_cases qubits params rng s)
    as [(Hlen & _ & Hfull) | [_ Hthrow]].
  - split.
    + intros (q & Hq & Hnotin). exfalso. apply Hnotin, Hall; [lia|done].
    + intros _. split; [|done]. apply Hall. lia.
  - split; [done|]. intros Hne. contradiction.
Qed.

(** Whatever the qubits are, a list that is not in ascending order is
    rejected. *)
Lemma apply_initialize_unsorted (qubits : reg_t) (params : cvector_t) (rng : RngEngine) s :
  ¬ StronglySorted Z.le qubits →
  apply_initialize num_qubits initialize_from_statevector qubits params rng s = Throws partial_initialization_error s.
Proof.
  intros Hunsorted.
  destruct (apply_initialize_cases qubits params rng s)
    as [(_ & Hsorted & _) | [_ Hthrow]]; [|done].
  exfalso. apply Hunsorted. rewrite Hsorted. apply sort_Sorted.
Qed.

(** C9: when [qubits] holds exactly the qubits of the register, each once,
    but not in ascending order, [apply_initialize] throws the
    partial-initialization diagnostic and leaves the state as it was. *)
Theorem apply_initialize_unordered_rejected
    (qubits : reg_t) (params : cvector_t) (rng : RngEngine) s :
  qubits ≡ₚ seqZ 0 (num_qubits (qreg_ s)) →
  ¬ Sorted Z.lt qubits →
  apply_initialize num_qubits initialize_from_statevector qubits params rng s = Throws partial_initialization_error s.
Proof.
  intros Hperm Hunsorted. apply apply_initialize_unsorted.
  intros Hsorted. apply Hunsorted, StronglySorted_le_NoDup; [done|].
  rewrite Hperm. apply NoDup_seqZ.
Qed.

End InitializeProperties.

(** Two qubits in |00>, as a dense register. *)
Lemma apply_initialize_partial_not_supported_run :
  let s := mkState (amplitude 1 :: replicate 3 (amplitude 0)) () in
  apply_initialize dense_num_qubits dense_initialize_from_statevector
      [0] [amplitude 0; amplitude 1] () s =
    Throws (invalid_argument "MPS_State: Partial initialization not supported yet.") s.
Proof.
  intros s.
  apply (apply_initialize_partial_not_supported dense_num_qubits
           dense_initialize_from_statevector [0] [amplitude 0; amplitude 1] () s).
  - apply (bool_decide_unpack _). vm_compute. exact I.
  - intros q Hq. apply list_elem_of_singleton in Hq. subst q. vm_compute.
    split; [discriminate|reflexivity].
  - exists 1. split.
    + vm_compute. split; [discriminate|reflexivity].
    + apply (bool_decide_unpack _). vm_compute. exact I.
Defined.

(** In ascending order the two qubits initialize the register, with the
    amplitudes of |01> and |10> exchanged for the internal order. *)
Lemma apply_initialize_full_register_run :
  let s := mkState (amplitude 1 :: replicate 3 (amplitude 0)) () in
  apply_initialize dense_num_qubits dense_initialize_from_statevector
      [0; 1] [amplitude 0.1; amplitude 0.2; amplitude 0.3; amplitude 0.4] () s =
    Returns () (mkState [amplitude 0.1; amplitude 0.3; amplitude 0.2; amplitude 0.4] ()).
Proof. reflexivity. Qed.

(** C5: the test of [apply_initialize] compares the size and the order of
    the list only, where its comment reads "If qubits is all ordered qubits
    in the statevector". On a register of two qubits, the list 0, 5 (qubit 1
    is missing) and the list 0, 0 (qubit 0 twice) do not hold all the qubits
    of the register, and both take the full-register path: no
    partial-initialization error, and the whole register is
    initialized. *)
Theorem apply_initialize_incomplete_list_takes_full_path :
  let s := mkState (amplitude 1 :: replicate 3 (amplitude 0)) () in
  let params := [amplitude 0.1; amplitude 0.2; amplitude 0.3; amplitude 0.4] in
  let initialized :=
    mkState [amplitude 0.1; amplitude 0.3; amplitude 0.2; amplitude 0.4] () in
  dense_num_qubits (qreg_ s) = 2
  ∧ (1 ∉ [0; 5])
  ∧ apply_initialize dense_num_qubits dense_initialize_from_statevector
      [0; 5] params () s = Returns () initialized
  ∧ (1 ∉ [0; 0])
  ∧ apply_initialize dense_num_qubits dense_initialize_from_statevector
      [0; 0] params () s = Returns () initialized.
Proof.
  intros s params initialized.
  split; [reflexivity|]. split; [|split; [reflexivity|split; [|reflexivity]]].
  - apply (bool_decide_unpack _). vm_compute. exact I.
  - apply (bool_decide_unpack _). vm_compute. exact I.
Qed.

(** Both qubits of the same register, the higher one first. *)
Lemma apply_initialize_unordered_rejected_run :
  let s := mkState (amplitude 1 :: replicate 3 (amplitude 0)) () in
  apply_initialize dense_num_qubits dense_initialize_from_statevector
      [1; 0] (replicate 4 (amplitude 0.5)) () s =
    Throws (invalid_argument "MPS_State: Partial initialization not supported yet.") s.
Proof.
  intros s.
  apply (apply_initialize_unordered_rejected dense_num_qubits
           dense_initialize_from_statevector [1; 0] (replicate 4 (amplitude 0.5)) () s).
  - change (seqZ 0 (dense_num_qubits (qreg_ s))) with [0; 1]. apply Permutation_swap.
  - intros Hsorted. inversion_clear Hsorted as [|? ? _ Hhd].
    inversion_clear Hhd as [|? ? Hlt]. vm_compute in Hlt. discriminate.
Defined.

(** ** Bit order of an initial state vector (C3) *)

Lemma external_index_cons (b : bool) (bits : list bool) :
  external_index (b :: bits) = Z.b2z b + 2 * external_index bits.
Proof. reflexivity. Qed.

Lemma internal_index_snoc (bits : list bool) (b : bool) :
  internal_index (bits ++ [b]) = 2 * internal_index bits + Z.b2z b.
Proof. unfold internal_index. by rewrite foldl_app. Qed.

Lemma external_index_range (bits : list bool) :
  0 ≤ external_index bits < 2 ^ Z.of_nat (length bits).
Proof.
  induction bits as [|b bits IH]; [done|].
  rewrite external_index_cons, length_cons, Nat2Z.inj_succ, Z.pow_succ_r by lia.
  destruct b; simpl Z.b2z; lia.
Qed.

Lemma external_index_reverse (bits : list bool) :
  external_index (reverse bits) = internal_index bits.
Proof.
  induction bits as [|b bits IH] using rev_ind; [done|].
  rewrite reverse_snoc, external_index_cons, internal_index_snoc, IH. lia.
Qed.

Lemma internal_index_range (bits : list bool) :
  0 ≤ internal_index bits < 2 ^ Z.of_nat (length bits).
Proof.
  rewrite <- external_index_reverse, <- (length_reverse bits).
  apply external_index_range.
Qed.

(** Bit [k] of the external index is the value of qubit [k]. *)
Lemma external_index_testbit (bits : list bool) (k : nat) (b : bool) :
  bits !! k = Some b → Z.testbit (external_index bits) (Z.of_nat k) = b.
Proof.
  revert k. induction bits as [|b' bits IH]; intros k Hk; [done|].
  rewrite external_index_cons, Z.add_comm.
  destruct k as [|k]; simpl in Hk.
  - injection Hk as ->. apply Z.testbit_0_r.
  - rewrite Nat2Z.inj_succ, Z.testbit_succ_r by lia. by apply IH.
Qed.

(** Bit [len - 1 - k] of the internal index is the value of qubit [k]. *)
Lemma internal_index_testbit (bits : list bool) (k : nat) (b : bool) :
  bits !! k = Some b →
  Z.testbit (internal_index bits) (Z.of_nat (length bits - 1 - k)) = b.
Proof.
  intros Hk. pose proof (lookup_lt_Some _ _ _ Hk) as Hlt.
  rewrite <- external_index_reverse. apply external_index_testbit.
  rewrite reverse_lookup by lia. rewrite <- Hk. f_equal. lia.
Qed.

Lemma land_1_bit (num : Z) : Z.land num 1 = num mod 2.
Proof. change 1 with (Z.ones 1) at 1. by rewrite Z.land_ones. Qed.

Lemma lor_shiftl_bit (acc b : Z) :
  0 ≤ acc → 0 ≤ b < 2 → Z.lor (Z.shiftl acc 1) b = 2 * acc + b.
Proof.
  intros Hacc Hb. assert (b = 0 ∨ b = 1) as [-> | ->] by lia.
  - rewrite Z.lor_0_r, Z.shiftl_mul_pow2 by lia. lia.
  - destruct acc as [|p|p]; [reflexivity|reflexivity|lia].
Qed.

(** The loop pushes the bits of [num] onto [acc], lowest first. *)
Lemma reverse_bits_loop_external (bits : list bool) (acc : Z) :
  0 ≤ acc →
  reverse_bits_loop (length bits) (external_index bits) acc =
    foldl (λ acc b, 2 * acc + Z.b2z b) acc bits.
Proof.
  revert acc. induction bits as [|b bits IH]; intros acc Hacc; [done|].
  pose proof (external_index_range bits) as [Hext _].
  rewrite external_index_cons. cbn [length reverse_bits_loop foldl].
  assert (Hshift : Z.shiftr (Z.b2z b + 2 * external_index bits) 1 = external_index bits).
  { rewrite Z.shiftr_div_pow2 by lia. change (2 ^ 1) with 2.
    destruct b; simpl Z.b2z; Z.div_mod_to_equations; lia. }
  assert (Hland : Z.land (Z.b2z b + 2 * external_index bits) 1 = Z.b2z b).
  { rewrite land_1_bit. destruct b; simpl Z.b2z; Z.div_mod_to_equations; lia. }
  rewrite Hshift, Hland, lor_shiftl_bit by (destruct b; simpl; lia).
  apply IH. destruct b; simpl; lia.
Qed.

(** Reversing the bits of an internal index gives the external index of the
    same basis state. *)
Lemma reverse_bits_internal_index (bits : list bool) :
  reverse_bits (internal_index bits) (Z.of_nat (length bits)) = external_index bits.
Proof.
  unfold reverse_bits. rewrite Nat2Z.id, <- external_index_reverse.
  rewrite <- (length_reverse bits), reverse_bits_loop_external by done.
  change (foldl _ 0 (reverse bits)) with (internal_index (reverse bits)).
  by rewrite <- external_index_reverse, reverse_involutive.
Qed.

Lemma reverse_bits_loop_range (len : nat) (num acc : Z) :
  0 ≤ acc →
  0 ≤ reverse_bits_loop len num acc < (acc + 1) * 2 ^ Z.of_nat len.
Proof.
  revert num acc. induction len as [|len IH]; intros num acc Hacc.
  - simpl. lia.
  - simpl reverse_bits_loop.
    assert (Hbit : 0 ≤ Z.land num 1 < 2)
      by (rewrite land_1_bit; apply Z.mod_pos_bound; lia).
    rewrite lor_shiftl_bit by done.
    specialize (IH (Z.shiftr num 1) (2 * acc + Z.land num 1) ltac:(lia)).
    rewrite Nat2Z.inj_succ, Z.pow_succ_r by lia. nia.
Qed.

Lemma reverse_bits_range (num len : Z) :
  0 ≤ len → 0 ≤ reverse_bits num len < 2 ^ len.
Proof.
  intros Hlen. unfold reverse_bits.
  pose proof (reverse_bits_loop_range (Z.to_nat len) num 0 ltac:(done)) as H.
  rewrite Z2Nat.id in H by done. lia.
Qed.

(** On a vector of [2^len] entries every index has its reverse in range:
    [reverse_all_bits] is defined, keeps the length, and entry [i] of the
    result is entry [reverse_bits i len] of the argument. *)
Lemma reverse_all_bits_lookup {A} (v : list A) (len : Z) :
  0 ≤ len → Z.of_nat (length v) = 2 ^ len →
  ∃ w, reverse_all_bits v len = Some w ∧ length w = length v ∧
       ∀ i : nat, (i < length v)%nat →
         w !! i = v !! Z.to_nat (reverse_bits (Z.of_nat i) len).
Proof.
  intros Hlen Hv.
  destruct (reverse_all_bits v len) as [w|] eqn:Hw.
  - exists w. apply mapM_Some_1 in Hw. split; [done|]. split.
    + apply Forall2_length in Hw. rewrite length_seqZ in Hw. lia.
    + intros i Hi.
      destruct (Forall2_lookup_l _ _ _ i (Z.of_nat i) Hw) as (y & Hy & Hf).
      { rewrite lookup_seqZ. lia. }
      by rewrite Hy, Hf.
  - exfalso. apply eq_None_not_Some in Hw. apply Hw, mapM_is_Some_2.
    apply Forall_forall. intros i Hi. apply elem_of_seqZ in Hi. simpl.
    apply lookup_lt_is_Some.
    pose proof (reverse_bits_range i len Hlen). lia.
Qed.

Section BitOrder.

Context {MPS ClassicalRegister : Type}.
Variable num_qubits : MPS → uint_t.
Variable initialize_from_statevector : uint_t → cvector_t → MPS → MPS.
Implicit Type s : State MPS ClassicalRegister.

(** C3: for a state vector [v] of [2^n] amplitudes on an [n]-qubit register,
    [initialize_qreg(n, v)] hands the register the bit-reversed vector [w]:
    for every assignment [bits] of values to the qubits, the amplitude [w]
    holds at the internal index of [bits] (qubit 0 most significant) is the
    amplitude [v] holds at the external index [b = Σ bit_k · 2^k], whose bit
    [k] is the value of qubit [k]. *)
Theorem initialize_qreg_statevector_bit_order (n : uint_t) (v : cvector_t) s :
  0 ≤ n → Z.of_nat (length v) = 2 ^ n → num_qubits (qreg_ s) = n →
  ∃ w : cvector_t,
    reverse_all_bits v n = Some w
    ∧ length w = length v
    ∧ initialize_qreg_statevector num_qubits initialize_from_statevector n v s =
        Returns () (set_qreg (initialize_from_statevector n w) s)
    ∧ ∀ bits : list bool, length bits = Z.to_nat n →
        is_Some (v !! Z.to_nat (external_index bits))
        ∧ w !! Z.to_nat (internal_index bits) = v !! Z.to_nat (external_index bits)
        ∧ ∀ (k : nat) (b : bool), bits !! k = Some b →
            Z.testbit (external_index bits) (Z.of_nat k) = b.
Proof.
  intros Hn Hv Hnum.
  destruct (reverse_all_bits_lookup v n Hn Hv) as (w & Hw & Hlen & Hlookup).
  exists w. split; [done|]. split; [done|]. split.
  - unfold initialize_qreg_statevector, gets, mbind, method_bind.
    case_decide; [done|]. by rewrite Hw.
  - intros bits Hbits.
    pose proof (external_index_range bits) as Hext.
    pose proof (internal_index_range bits) as Hint.
    rewrite Hbits, Z2Nat.id in Hext, Hint by done.
    split; [apply lookup_lt_is_Some; lia|]. split.
    + rewrite Hlookup by lia. rewrite Z2Nat.id by lia.
      replace n with (Z.of_nat (length bits)) by lia.
      by rewrite reverse_bits_internal_index.
    + apply external_index_testbit.
Qed.

End BitOrder.

(** Two qubits: the amplitudes of |01> and |10> change places, those of
    |00> and |11> stay. *)
Lemma initialize_qreg_statevector_bit_order_run :
  let v := [amplitude 0.1; amplitude 0.2; amplitude 0.3; amplitude 0.4] in
  let s := mkState (amplitude 1 :: replicate 3 (amplitude 0)) () in
  initialize_qreg_statevector dense_num_qubits dense_initialize_from_statevector 2 v s =
    Returns () (mkState [amplitude 0.1; amplitude 0.3; amplitude 0.2; amplitude 0.4] ()).
Proof.
  intros v s.
  destruct (initialize_qreg_statevector_bit_order dense_num_qubits
              dense_initialize_from_statevector 2 v s)
    as (w & Hw & _ & Hrun & _).
  - lia.
  - reflexivity.
  - reflexivity.
  - vm_compute in Hw. injection Hw as <-. exact Hrun.
Defined.

(** ** Reset (C6, X23) *)

Section ResetProperties.

Context {MPS ClassicalRegister RngEngine : Type}.
Variable apply_measure_mps : reg_t → RngEngine → MPS → reg_t * RngEngine * MPS.
Variable apply_x_mps : uint_t → MPS → MPS.

(** What the register promises (spec 4.3.8): a measurement returns one bit
    per measured qubit and leaves each measured qubit in the basis state of
    its outcome; an X exchanges the basis states of its qubit and leaves the
    basis state of every other qubit. [qubit_is q k b] reads "in register
    [q], qubit [k] is in the basis state [b]". *)
Variable qubit_is : MPS → uint_t → uint_t → Prop.
Hypothesis measure_collapses : ∀ qubits rng q outcome rng' q',
  apply_measure_mps qubits rng q = (outcome, rng', q') →
  length outcome = length qubits
  ∧ Forall (λ b, b = 0 ∨ b = 1) outcome
  ∧ ∀ i k b, qubits !! i = Some k → outcome !! i = Some b → qubit_is q' k b.
Hypothesis x_flips : ∀ q k b, qubit_is q k b → qubit_is (apply_x_mps k q) k (1 - b).
Hypothesis x_elsewhere : ∀ q k j b,
  j ≠ k → qubit_is q j b → qubit_is (apply_x_mps k q) j b.

(** The update loop, from position [i] on. *)
Lemma measure_reset_update_from (qubits meas : reg_t) (c : ClassicalRegister) :
  length meas = length qubits → Forall (λ b, b = 0 ∨ b = 1) meas →
  ∀ (n i : nat) (q : MPS), (i + n = length qubits)%nat →
    for_loop i n (λ i,
      m ← at_index meas i;
      if decide (m ≠ 0) then
        k ← at_index qubits i; on_qreg (apply_x_mps k)
      else mret ()) (mkState q c) =
    Returns () (mkState (flip_ones apply_x_mps (drop i (zip qubits meas)) q) c).
Proof.
  intros Hlen Hbits. induction n as [|n IH]; intros i q Hi.
  - simpl. rewrite drop_ge by (rewrite length_zip; lia). reflexivity.
  - destruct (lookup_lt_is_Some_2 qubits i ltac:(lia)) as [k Hk].
    destruct (lookup_lt_is_Some_2 meas i ltac:(lia)) as [m Hm].
    assert (Hzip : zip qubits meas !! i = Some (k, m))
      by (apply lookup_zip_with_Some; eauto).
    rewrite (drop_S _ _ _ Hzip).
    assert (Hm01 : m = 0 ∨ m = 1)
      by (eapply Forall_lookup_1 in Hbits; [exact Hbits|exact Hm]).
    cbn [for_loop]. unfold mbind at 1, method_bind at 1.
    unfold mbind at 1, method_bind at 1, at_index at 1. rewrite Hm.
    cbn [mret method_ret flip_ones foldl fst snd].
    destruct Hm01 as [-> | ->].
    + rewrite decide_False by lia. rewrite (decide_False (P := 0 = 1)) by lia.
      cbn [mret method_ret]. by apply IH; lia.
    + rewrite decide_True by lia. rewrite (decide_True (P := 1 = 1)) by lia.
      unfold mbind at 1, method_bind at 1, at_index at 1. rewrite Hk.
      cbn [mret method_ret on_qreg modify set_qreg qreg_ creg_].
      by apply IH; lia.
Qed.

Lemma flip_ones_elsewhere (measured : list (uint_t * uint_t)) (q : MPS) (j b : uint_t) :
  j ∉ measured.*1 → qubit_is q j b → qubit_is (flip_ones apply_x_mps measured q) j b.
Proof.
  revert q. induction measured as [|[k m] measured IH]; intros q Hj Hq; [done|].
  rewrite fmap_cons, not_elem_of_cons in Hj. destruct Hj as [Hjk Hj].
  cbn [flip_ones foldl fst snd]. apply IH; [done|].
  case_decide; [by apply x_elsewhere|done].
Qed.

Lemma flip_ones_zero (measured : list (uint_t * uint_t)) (q : MPS) :
  NoDup measured.*1 →
  (∀ k m, (k, m) ∈ measured → (m = 0 ∨ m = 1) ∧ qubit_is q k m) →
  ∀ k, k ∈ measured.*1 → qubit_is (flip_ones apply_x_mps measured q) k 0.
Proof.
  revert q. induction measured as [|[k0 m0] measured IH]; intros q Hnd Hq k Hk.
  - by apply elem_of_nil in Hk.
  - rewrite fmap_cons in Hnd, Hk. apply NoDup_cons in Hnd as [Hk0 Hnd].
    destruct (Hq k0 m0 ltac:(left)) as [Hm0 Hq0].
    cbn [flip_ones foldl fst snd].
    set (q1 := if decide (m0 = 1) then apply_x_mps k0 q else q).
    assert (Hq1 : qubit_is q1 k0 0).
    { subst q1. destruct Hm0 as [-> | ->].
      - by rewrite decide_False by lia.
      - rewrite decide_True by lia. by apply (x_flips q k0 1). }
    apply elem_of_cons in Hk as [-> | Hk].
    + by apply flip_ones_elsewhere.
    + apply IH; [done| |done]. intros k' m' Hin.
      destruct (Hq k' m' ltac:(by right)) as [Hm' Hq'].
      split; [done|]. subst q1. case_decide; [|done].
      apply x_elsewhere; [|done]. intros ->. apply Hk0.
      apply list_elem_of_fmap. by exists (k0, m').
Qed.

(** X23: [apply_reset] measures the qubits, then applies X once for each
    entry of the list whose outcome is 1 ([flip_ones]), and the classical
    register is as before: the outcome is stored nowhere. When the list
    names each qubit once, every qubit of the list ends in |0>. *)
Theorem apply_reset_measures_then_flips (qubits : reg_t) (rng : RngEngine)
    (s : State MPS ClassicalRegister) :
  ∃ (outcome : reg_t) (rng' : RngEngine) (q' : MPS),
    apply_measure_mps qubits rng (qreg_ s) = (outcome, rng', q')
    ∧ apply_reset apply_measure_mps apply_x_mps qubits rng s =
        Returns rng'
          (mkState (flip_ones apply_x_mps (zip qubits outcome) q') (creg_ s))
    ∧ (NoDup qubits → ∀ k, k ∈ qubits →
         qubit_is (flip_ones apply_x_mps (zip qubits outcome) q') k 0).
Proof.
  destruct (apply_measure_mps qubits rng (qreg_ s)) as [[outcome rng'] q'] eqn:Hmeasure.
  destruct (measure_collapses _ _ _ _ _ _ Hmeasure) as (Hlen & Hbits & Hcollapse).
  exists outcome, rng', q'. split; [done|]. split.
  - unfold apply_reset, measure_qreg, measure_reset_update.
    unfold mbind at 1, method_bind at 1. rewrite Hmeasure.
    unfold mbind at 1, method_bind at 1.
    rewrite (measure_reset_update_from qubits outcome (creg_ s) Hlen Hbits
               (length qubits) 0%nat q' ltac:(lia)).
    reflexivity.
  - intros Hnd k Hk.
    apply flip_ones_zero.
    + by rewrite fst_zip by lia.
    + intros k' m Hin. apply list_elem_of_lookup in Hin as [i Hi].
      apply lookup_zip_with_Some in Hi as (k'' & m'' & [= -> ->] & Hk' & Hm).
      split; [by eapply Forall_lookup_1 in Hbits|by eapply Hcollapse].
    + by rewrite fst_zip by lia.
Qed.

End ResetProperties.

(** The basis-state register keeps the promises of the section above. *)
Lemma basis_measure_collapses (qubits : reg_t) (rng : ()) (q : Z → bool)
    (outcome : reg_t) (rng' : ()) (q' : Z → bool) :
  basis_apply_measure qubits rng q = (outcome, rng', q') →
  length outcome = length qubits
  ∧ Forall (λ b, b = 0 ∨ b = 1) outcome
  ∧ ∀ i k b, qubits !! i = Some k → outcome !! i = Some b → basis_qubit_is q' k b.
Proof.
  unfold basis_apply_measure. intros [= <- <- <-]. split; [apply length_fmap|]. split.
  - apply Forall_fmap, Forall_forall. intros k _. simpl. destruct (q k); auto.
  - intros i k b Hk Hb. rewrite list_lookup_fmap, Hk in Hb. by injection Hb.
Qed.

Lemma basis_x_flips (q : Z → bool) (k b : uint_t) :
  basis_qubit_is q k b → basis_qubit_is (basis_apply_x k q) k (1 - b).
Proof.
  unfold basis_qubit_is, basis_apply_x. intros <-.
  rewrite decide_True by done. by destruct (q k).
Qed.

Lemma basis_x_elsewhere (q : Z → bool) (k j b : uint_t) :
  j ≠ k → basis_qubit_is q j b → basis_qubit_is (basis_apply_x k q) j b.
Proof.
  unfold basis_qubit_is, basis_apply_x. intros Hjk <-. by rewrite decide_False.
Qed.

(** Three qubits in |011> (qubits 0 and 1 set); reset of qubits 0 and 2
    flips qubit 0 only. *)
Lemma apply_reset_measures_then_flips_run :
  let q := λ k : Z, bool_decide (k = 0 ∨ k = 1) in
  apply_reset basis_apply_measure basis_apply_x [0; 2] () (mkState q ()) =
    Returns () (mkState (basis_apply_x 0 q) ())
  ∧ ∀ k, k ∈ [0; 2] → basis_qubit_is (basis_apply_x 0 q) k 0.
Proof.
  intros q.
  destruct (apply_reset_measures_then_flips basis_apply_measure basis_apply_x
              basis_qubit_is basis_measure_collapses basis_x_flips basis_x_elsewhere
              [0; 2] () (mkState q ()))
    as (outcome & rng' & q' & Hmeasure & Hrun & Hzero).
  injection Hmeasure as <- <- <-.
  split; [exact Hrun|].
  apply Hzero. apply (bool_decide_unpack _). vm_compute. exact I.
Defined.

(** C6: [apply_reset] is documented as "Reset the specified qubits to the
    |0> state", and [measure_reset_update] applies one X for each entry of
    the list whose outcome differs from the final state. On the list 0, 0
    and a register whose qubit 0 is in |1>, the measurement reads 1 twice,
    X is applied to qubit 0 twice, and the qubit that was to be reset is
    in |1> when the call returns. *)
Theorem apply_reset_repeated_qubit_stays_set :
  let q := λ k : Z, bool_decide (k = 0) in
  basis_apply_measure [0; 0] () q = ([1; 1], (), q)
  ∧ apply_reset basis_apply_measure basis_apply_x [0; 0] () (mkState q ()) =
      Returns () (mkState (basis_apply_x 0 (basis_apply_x 0 q)) ())
  ∧ basis_qubit_is (basis_apply_x 0 (basis_apply_x 0 q)) 0 1.
Proof. intros q. split; [|split]; reflexivity. Qed.

Section MeasureProperties.

Context {MPS ClassicalRegister RngEngine : Type}.
Variable apply_measure_mps : reg_t → RngEngine → MPS → reg_t * RngEngine * MPS.
Variable store_measure : reg_t → reg_t → reg_t → ClassicalRegister → ClassicalRegister.

(** For contrast: [apply_measure] does store the outcome in the classical
    register. *)
Lemma apply_measure_stores_outcome (qubits cmemory cregister : reg_t) (rng : RngEngine)
    (s : State MPS ClassicalRegister) :
  apply_measure apply_measure_mps store_measure qubits cmemory cregister rng s =
    let '(outcome, rng', q') := apply_measure_mps qubits rng (qreg_ s) in
    Returns rng' (mkState q' (store_measure outcome cmemory cregister (creg_ s))).
Proof.
  unfold apply_measure, measure_qreg, mbind, method_bind.
  by destruct (apply_measure_mps qubits rng (qreg_ s)) as [[outcome rng'] q'].
Qed.

End MeasureProperties.

(** ** Sampling by measuring clones (C2) *)

Lemma to_int_t_le (shots : uint_t) : (Z.to_nat (to_int_t shots) ≤ Z.to_nat shots)%nat.
Proof. unfold to_int_t. case_decide; lia. Qed.

Section CloneSampling.

Context {MPS ClassicalRegister RngEngine : Type}.
Variable apply_measure_mps : reg_t → RngEngine → MPS → reg_t * RngEngine * MPS.
Variable MPS_default : MPS.
Variable initialize_copy : MPS → MPS → MPS.
Variable samples_limits : vector_limits.

(** One shot writes entry [i] of the samples: the outcome of measuring the
    clone that [initialize] made of [qreg]. The engine and the clone are
    what the measurement left. *)
Lemma measure_one_shot_run (qreg : MPS) (qubits : reg_t) (i : nat)
    (l : apply_measure_locals) :
  let shot := apply_measure_mps qubits (rng_ l) (initialize_copy (temp l) qreg) in
  ∃ l1, measure_one_shot apply_measure_mps initialize_copy qreg qubits i l = Returns () l1
    ∧ all_samples l1 = <[i := shot.1.1]> (all_samples l)
    ∧ rng_ l1 = shot.1.2
    ∧ temp l1 = shot.2.
Proof.
  unfold measure_one_shot, modify. cbv zeta.
  destruct (apply_measure_mps qubits (rng_ l) (initialize_copy (temp l) qreg))
    as [[single_result rng] temp'].
  eexists. repeat split.
Qed.

(** The [k] shots after the [done] ones: the loop returns, and it has
    replaced the next [k] empty samples by the outcomes of [clone_shots];
    the samples before and after them are as they were. *)
Lemma measure_shots_from (qreg : MPS) (qubits : reg_t) (rest : list reg_t) :
  ∀ (k : nat) (done : list reg_t) (l : apply_measure_locals),
    all_samples l = done ++ replicate k [] ++ rest →
    let shots := clone_shots apply_measure_mps initialize_copy (temp l) qreg qubits k
                   (rng_ l) in
    ∃ l', for_loop (length done) k
            (measure_one_shot apply_measure_mps initialize_copy qreg qubits) l
          = Returns () l'
      ∧ all_samples l' = done ++ shots.1 ++ rest
      ∧ rng_ l' = shots.2.
Proof.
  induction k as [|k IH]; intros done l Hl; cbv zeta.
  - exists l. by rewrite Hl.
  - destruct (measure_one_shot_run qreg qubits (length done) l)
      as (l1 & Hshot & Hsamples & Hrng & Htemp).
    rewrite Hl in Hsamples. cbn [replicate app] in Hsamples.
    rewrite insert_app_r_alt, Nat.sub_diag in Hsamples by done.
    cbn [insert list_insert] in Hsamples.
    cbn [clone_shots].
    destruct (apply_measure_mps qubits (rng_ l) (initialize_copy (temp l) qreg))
      as [[sample rng'] temp'].
    cbn [fst snd] in Hsamples, Hrng, Htemp.
    destruct (IH (done ++ [sample]) l1) as (l' & Hrun & Hsamples' & Hrng').
    { by rewrite Hsamples, <- app_assoc. }
    rewrite length_app in Hrun. cbn [length] in Hrun. rewrite Nat.add_1_r in Hrun.
    rewrite Htemp, Hrng in Hsamples', Hrng'.
    exists l'. split.
    { cbn [for_loop]. unfold mbind, method_bind. by rewrite Hshot. }
    destruct (clone_shots apply_measure_mps initialize_copy temp' qreg qubits k rng')
      as [samples rng''].
    cbn [fst snd] in *. by rewrite Hsamples', <- app_assoc.
Qed.

(** C2: for every list of qubits and every shot count,
    [sample_measure_using_apply_measure] ends with the state, and so the
    register [qreg_], exactly as it was given, whether it returns or throws,
    and it is never undefined. It throws [std::length_error] when the shots
    exceed the [max_size()] of the vector of samples and [std::bad_alloc]
    when there is no room for them. Otherwise it returns: shot by shot,
    [temp] is made a clone of [qreg_] and the clone is measured
    ([clone_shots]); the samples are these outcomes, one per shot that the
    [int_t] loop counter reaches, and an empty sample for each other
    shot. *)
Theorem sample_measure_using_apply_measure_keeps_qreg (qubits : reg_t) (shots : uint_t)
    (rng : RngEngine) (s : State MPS ClassicalRegister) :
  let run :=
    sample_measure_using_apply_measure apply_measure_mps MPS_default initialize_copy
      samples_limits qubits shots rng s in
  let n := Z.to_nat (to_int_t shots) in
  let measured :=
    clone_shots apply_measure_mps initialize_copy MPS_default (qreg_ s) qubits n rng in
  match run with
  | Returns _ s' | Throws _ s' => s' = s
  | Undefined => False
  end
  ∧ (max_size samples_limits < shots → run = Throws length_error s)
  ∧ (shots ≤ max_size samples_limits → shots ≠ 0 →
     has_room samples_limits shots = false → run = Throws bad_alloc s)
  ∧ (shots ≤ max_size samples_limits →
     shots = 0 ∨ has_room samples_limits shots = true →
     run = Returns (measured.1 ++ replicate (Z.to_nat shots - n) [], measured.2) s).
Proof.
  intros run n measured.
  assert (Hlength : max_size samples_limits < shots → run = Throws length_error s).
  { intros Hmax. subst run.
    unfold sample_measure_using_apply_measure, allocate, mbind, method_bind.
    by rewrite decide_True. }
  assert (Halloc : shots ≤ max_size samples_limits → shots ≠ 0 →
                   has_room samples_limits shots = false → run = Throws bad_alloc s).
  { intros Hmax Hshots Hroom. subst run.
    unfold sample_measure_using_apply_measure, allocate, mbind, method_bind.
    rewrite decide_False by lia. by rewrite bool_decide_eq_false_2, Hroom. }
  assert (Hreturns : shots ≤ max_size samples_limits →
                     shots = 0 ∨ has_room samples_limits shots = true →
                     run = Returns (measured.1 ++ replicate (Z.to_nat shots - n) [],
                                    measured.2) s).
  { intros Hmax Hroom. subst run.
    unfold sample_measure_using_apply_measure, allocate, mbind, method_bind.
    rewrite decide_False by lia.
    assert (bool_decide (shots = 0) || has_room samples_limits shots = true) as ->.
    { destruct Hroom as [-> | ->]; [done|apply orb_true_r]. }
    cbn [mret method_ret].
    destruct (measure_shots_from (qreg_ s) qubits (replicate (Z.to_nat shots - n) [])
                n [] (mkLocals MPS_default (replicate (Z.to_nat shots) []) [] rng))
      as (l' & Hrun & Hsamples & Hrng).
    { cbn [all_samples app]. rewrite <- replicate_add. f_equal.
      pose proof (to_int_t_le shots). lia. }
    cbn [length temp rng_] in Hrun, Hsamples, Hrng. fold n.
    by rewrite Hrun, Hsamples, Hrng. }
  split; [|done].
  destruct (decide (max_size samples_limits < shots)) as [Hmax|Hmax].
  { by rewrite Hlength. }
  destruct (decide (shots = 0)) as [Hzero|Hzero].
  { rewrite Hreturns by (lia || by left). done. }
  destruct (has_room samples_limits shots) eqn:Hroom.
  - rewrite Hreturns by (lia || by right). done.
  - by rewrite Halloc by (lia || done).
Qed.

End CloneSampling.

(** The basis-state register |01> on the small machine. Two shots read the
    same values twice; 2000 shots are more than a vector holds, and for 500
    there is no room. The state is the one given each time. *)
Lemma sample_measure_using_apply_measure_keeps_qreg_run :
  let s := mkState (λ k : Z, bool_decide (k = 0)) () in
  sample_measure_using_apply_measure basis_apply_measure (λ _, false) (λ _ other, other)
      small_limits [0; 1] 2 () s = Returns ([[1; 0]; [1; 0]], ()) s
  ∧ sample_measure_using_apply_measure basis_apply_measure (λ _, false) (λ _ other, other)
      small_limits [0; 1] 2000 () s = Throws length_error s
  ∧ sample_measure_using_apply_measure basis_apply_measure (λ _, false) (λ _ other, other)
      small_limits [0; 1] 500 () s = Throws bad_alloc s.
Proof.
  intros s.
  pose proof (sample_measure_using_apply_measure_keeps_qreg basis_apply_measure
                (λ _, false) (λ _ other, other) small_limits [0; 1] 2 () s) as Hfew.
  pose proof (sample_measure_using_apply_measure_keeps_qreg basis_apply_measure
                (λ _, false) (λ _ other, other) small_limits [0; 1] 2000 () s) as Hmany.
  pose proof (sample_measure_using_apply_measure_keeps_qreg basis_apply_measure
                (λ _, false) (λ _ other, other) small_limits [0; 1] 500 () s) as Hroom.
  cbv zeta in Hfew, Hmany, Hroom.
  destruct Hfew as (_ & _ & _ & Hfew), Hmany as (_ & Hmany & _),
    Hroom as (_ & _ & Hroom & _).
  split; [|split].
  - apply Hfew; [vm_compute; discriminate|right; reflexivity].
  - apply Hmany. reflexivity.
  - apply Hroom; [vm_compute; discriminate|discriminate|reflexivity].
Defined.

(** ** Defaults of the configuration (C7) *)

Section ConfigDefaults.

Context {json_t : Type}.
Variable get_value_double : string → json_t → option double.
Variable get_value_uint : string → json_t → option uint_t.
Variable get_value_string : string → json_t → option string.

(** C7: for every configuration object and whatever the settings were,
    [set_config] installs the default of each key that the reader finds no
    value for: truncation threshold 1e-16, maximum bond dimension
    [UINT64_MAX] (no bound), chop threshold 1e-8, OMP qubit threshold 14,
    OMP threads 1 and the heuristic sample-measure algorithm. *)
Theorem set_config_installs_defaults (config : json_t) (g : Statics) :
  let g' := set_config get_value_double get_value_uint get_value_string config g in
  (get_value_double "matrix_product_state_truncation_threshold" config = None →
     truncation_threshold g' = 1e-16%float)
  ∧ (get_value_uint "matrix_product_state_max_bond_dimension" config = None →
     max_bond_dimension g' = UINT64_MAX)
  ∧ (get_value_uint "chop_threshold" config = None →
     json_chop_threshold g' = 1e-8%float)
  ∧ (get_value_uint "mps_parallel_threshold" config = None →
     omp_threshold g' = 14)
  ∧ (get_value_uint "mps_omp_threads" config = None →
     omp_threads g' = 1)
  ∧ (get_value_string "mps_sample_measure_algorithm" config = None →
     sample_measure_alg g' = Sample_measure_alg.HEURISTIC).
Proof.
  unfold set_config.
  destruct (get_value_double "matrix_product_state_truncation_threshold" config),
    (get_value_uint "matrix_product_state_max_bond_dimension" config),
    (get_value_uint "chop_threshold" config),
    (get_value_uint "mps_parallel_threshold" config),
    (get_value_uint "mps_omp_threads" config),
    (get_value_string "mps_sample_measure_algorithm" config);
    repeat case_match; cbn; repeat split; intros; done.
Qed.

End ConfigDefaults.

(** No bound a [uint_t] can hold is above the default bond dimension. *)
Lemma UINT64_MAX_is_no_bound (d : uint_t) : d < 2 ^ 64 → d ≤ UINT64_MAX.
Proof. unfold UINT64_MAX. lia. Qed.

(** A configuration that sets the number of threads and nothing else. *)
Lemma set_config_installs_defaults_run :
  let config : gmap string json_value := {[ "mps_omp_threads"%string := json_unsigned 4 ]} in
  let g := mkStatics 0.5 2 0.5 2 2 Sample_measure_alg.PROB in
  set_config json_get_double json_get_uint json_get_string config g =
    mkStatics 1e-16 UINT64_MAX 1e-8 14 4 Sample_measure_alg.HEURISTIC.
Proof.
  intros config g.
  destruct (set_config_installs_defaults json_get_double json_get_uint json_get_string
              config g) as (Htrunc & Hbond & Hchop & Hthreshold & _ & Halg).
  specialize (Htrunc eq_refl). specialize (Hbond eq_refl). specialize (Hchop eq_refl).
  specialize (Hthreshold eq_refl). specialize (Halg eq_refl).
  destruct (set_config json_get_double json_get_uint json_get_string config g)
    as [t b c o th a] eqn:Hrun.
  cbn in Htrunc, Hbond, Hchop, Hthreshold, Halg. subst t b c o a.
  f_equal. by injection Hrun.
Defined.

(** ** The choice of the sampling algorithm (C1) *)


Section SamplerChoice.

Context {MPS ClassicalRegister : Type}.
Variable get_max_bond_dimensions : MPS → uint_t.
Variable pow : double → double → double.


End SamplerChoice.


(** At 26 qubits the shots still count: bond dimension 2, on both sides of
    [12 · 1.85^16]. *)
Lemma heuristic_at_26_qubits_counts_shots :
  sample_measure_strategy pow_repeated Sample_measure_alg.HEURISTIC 26 225000 2
    = using_apply_measure
  ∧ sample_measure_strategy pow_repeated Sample_measure_alg.HEURISTIC 26 226000 2
    = using_probabilities.
Proof. split; vm_compute; reflexivity. Qed.


(** * Further properties *)

(** ** Gates: arity, errors and aliases *)

Section GateProperties.

Context {MPS ClassicalRegister : Type}.
Variable G : mps_gates MPS.
Implicit Type s : State MPS ClassicalRegister.

(** A gate of the table either finds the qubits and parameters it indexes
    and returns, with the classical register as it was, or runs off the end
    of a vector. *)
Lemma apply_gate_recognized (op : Op) s (g : Gates.enum) :
  gateset_ !! name op = Some g →
  if decide ((gate_arity g).1 ≤ length (qubits op)
             ∧ (gate_arity g).2 ≤ length (params op))%nat
  then ∃ q', apply_gate G op s = Returns () (mkState q' (creg_ s))
  else apply_gate G op s = Undefined.
Proof.
  intros Hg. unfold apply_gate. rewrite Hg.
  destruct op as [n qs ps ms sp], s as [q c]. cbn [qubits params qreg_ creg_].
  destruct g; cbn [gate_arity fst snd];
    destruct qs as [|q0 [|q1 qs]]; destruct ps as [|p0 [|p1 [|p2 ps]]];
    cbn [length];
    (case_decide as Harity;
     [ try (exfalso; lia); eexists; reflexivity
     | try (exfalso; apply Harity; lia); reflexivity ]).
Qed.

Lemma apply_gate_keeps_creg (op : Op) s :
  match apply_gate G op s with
  | Returns _ s' | Throws _ s' => creg_ s' = creg_ s
  | Undefined => True
  end.
Proof.
  destruct (gateset_ !! name op) as [g|] eqn:Hg.
  - pose proof (apply_gate_recognized op s g Hg) as Hrun.
    case_decide; [destruct Hrun as [q' ->]|rewrite Hrun]; done.
  - unfold apply_gate. by rewrite Hg.
Qed.



Lemma apply_gate_same_entry (op : Op) (n1 n2 : string) (g : Gates.enum) s :
  gateset_ !! n1 = Some g → gateset_ !! n2 = Some g →
  apply_gate G (rename n1 op) s = apply_gate G (rename n2 op) s.
Proof.
  intros H1 H2. unfold apply_gate, rename. cbn [name qubits params].
  by rewrite H1, H2.
Qed.

(** X3: the names p and u1, the names u, U and u3, the names CX and cx and
    the names cp and cu1 are the same gate: an operation does the same under
    either name. *)
Theorem apply_gate_aliases (op : Op) s :
  apply_gate G (rename "p" op) s = apply_gate G (rename "u1" op) s
  ∧ apply_gate G (rename "u" op) s = apply_gate G (rename "u3" op) s
  ∧ apply_gate G (rename "U" op) s = apply_gate G (rename "u3" op) s
  ∧ apply_gate G (rename "CX" op) s = apply_gate G (rename "cx" op) s
  ∧ apply_gate G (rename "cp" op) s = apply_gate G (rename "cu1" op) s.
Proof.
  split; [|split; [|split; [|split]]].
  - apply (apply_gate_same_entry op _ _ Gates.u1); vm_compute; reflexivity.
  - apply (apply_gate_same_entry op _ _ Gates.u3); vm_compute; reflexivity.
  - apply (apply_gate_same_entry op _ _ Gates.u3); vm_compute; reflexivity.
  - apply (apply_gate_same_entry op _ _ Gates.cx); vm_compute; reflexivity.
  - apply (apply_gate_same_entry op _ _ Gates.cu1); vm_compute; reflexivity.
Qed.

End GateProperties.


(** ** Configuration: what is installed, what is kept *)

Section ConfigProperties.

Context {json_t : Type}.
Variable get_value_double : string → json_t → option double.
Variable get_value_uint : string → json_t → option uint_t.
Variable get_value_string : string → json_t → option string.

(** The five numeric settings after [set_config]: the configured value or
    the default. None of them is read from the settings before the call. *)
Lemma set_config_numeric (config : json_t) (g : Statics) :
  let g' := set_config get_value_double get_value_uint get_value_string config g in
  truncation_threshold g' =
    default 1e-16%float
      (get_value_double "matrix_product_state_truncation_threshold" config)
  ∧ max_bond_dimension g' =
    default UINT64_MAX (get_value_uint "matrix_product_state_max_bond_dimension" config)
  ∧ json_chop_threshold g' =
    default 1e-8%float (to_double <$> get_value_uint "chop_threshold" config)
  ∧ omp_threshold g' = default 14 (get_value_uint "mps_parallel_threshold" config)
  ∧ omp_threads g' = default 1 (get_value_uint "mps_omp_threads" config).
Proof.
  unfold set_config.
  destruct (get_value_double "matrix_product_state_truncation_threshold" config),
    (get_value_uint "matrix_product_state_max_bond_dimension" config),
    (get_value_uint "chop_threshold" config),
    (get_value_uint "mps_parallel_threshold" config),
    (get_value_uint "mps_omp_threads" config),
    (get_value_string "mps_sample_measure_algorithm" config);
    repeat case_match; cbn; done.
Qed.

(** The algorithm after [set_config]. *)
Lemma set_config_algorithm (config : json_t) (g : Statics) :
  sample_measure_alg
    (set_config get_value_double get_value_uint get_value_string config g) =
  match get_value_string "mps_sample_measure_algorithm" config with
  | Some alg =>
      if String.eqb alg "mps_probabilities" then Sample_measure_alg.PROB
      else if String.eqb alg "mps_apply_measure" then Sample_measure_alg.APPLY_MEASURE
      else sample_measure_alg g
  | None => Sample_measure_alg.HEURISTIC
  end.
Proof.
  unfold set_config.
  destruct (get_value_string "mps_sample_measure_algorithm" config);
    repeat case_match; reflexivity.
Qed.

Lemma Statics_eq (g1 g2 : Statics) :
  truncation_threshold g1 = truncation_threshold g2 →
  max_bond_dimension g1 = max_bond_dimension g2 →
  json_chop_threshold g1 = json_chop_threshold g2 →
  omp_threshold g1 = omp_threshold g2 →
  omp_threads g1 = omp_threads g2 →
  sample_measure_alg g1 = sample_measure_alg g2 →
  g1 = g2.
Proof. destruct g1, g2; cbn; congruence. Qed.

(** X4: a value the reader finds under a key is the value installed; the
    chop threshold is read as a [uint_t], so what is installed is that whole
    number as a [double]; and the two algorithm names select the
    marginal-probability and the clone-and-measure sampler. *)
Theorem set_config_installs_configured (config : json_t) (g : Statics) :
  let g' := set_config get_value_double get_value_uint get_value_string config g in
  (∀ v, get_value_double "matrix_product_state_truncation_threshold" config = Some v →
        truncation_threshold g' = v)
  ∧ (∀ v, get_value_uint "matrix_product_state_max_bond_dimension" config = Some v →
          max_bond_dimension g' = v)
  ∧ (∀ v, get_value_uint "chop_threshold" config = Some v →
          json_chop_threshold g' = to_double v)
  ∧ (∀ v, get_value_uint "mps_parallel_threshold" config = Some v → omp_threshold g' = v)
  ∧ (∀ v, get_value_uint "mps_omp_threads" config = Some v → omp_threads g' = v)
  ∧ (get_value_string "mps_sample_measure_algorithm" config = Some "mps_probabilities"%string →
     sample_measure_alg g' = Sample_measure_alg.PROB)
  ∧ (get_value_string "mps_sample_measure_algorithm" config = Some "mps_apply_measure"%string →
     sample_measure_alg g' = Sample_measure_alg.APPLY_MEASURE).
Proof.
  intros g'. destruct (set_config_numeric config g) as (Ht & Hb & Hc & Ho & Hn).
  pose proof (set_config_algorithm config g) as Ha. fold g' in Ht, Hb, Hc, Ho, Hn, Ha.
  split; [|split; [|split; [|split; [|split; [|split]]]]].
  - intros v Hv. by rewrite Ht, Hv.
  - intros v Hv. by rewrite Hb, Hv.
  - intros v Hv. by rewrite Hc, Hv.
  - intros v Hv. by rewrite Ho, Hv.
  - intros v Hv. by rewrite Hn, Hv.
  - intros Hv. by rewrite Ha, Hv.
  - intros Hv. by rewrite Ha, Hv.
Qed.

(** X5: an algorithm name that is neither "mps_probabilities" nor
    "mps_apply_measure" installs nothing: the sampler configured before the
    call stays, and it is not reset to the heuristic. *)
Theorem set_config_unknown_algorithm_keeps (config : json_t) (g : Statics) (alg : string) :
  get_value_string "mps_sample_measure_algorithm" config = Some alg →
  alg ≠ "mps_probabilities"%string → alg ≠ "mps_apply_measure"%string →
  sample_measure_alg
    (set_config get_value_double get_value_uint get_value_string config g)
  = sample_measure_alg g.
Proof.
  intros Hv Hprob Happly. rewrite set_config_algorithm, Hv.
  apply String.eqb_neq in Hprob, Happly. by rewrite Hprob, Happly.
Qed.

(** X6: unless the configuration names an algorithm that is not recognized,
    the settings after [set_config] are those of the configuration alone:
    nothing of the settings before the call is left. *)
Theorem set_config_forgets_previous (config : json_t) (g1 g2 : Statics) :
  (get_value_string "mps_sample_measure_algorithm" config = None
   ∨ get_value_string "mps_sample_measure_algorithm" config = Some "mps_probabilities"%string
   ∨ get_value_string "mps_sample_measure_algorithm" config = Some "mps_apply_measure"%string) →
  set_config get_value_double get_value_uint get_value_string config g1 =
  set_config get_value_double get_value_uint get_value_string config g2.
Proof.
  intros Halg.
  destruct (set_config_numeric config g1) as (Ht1 & Hb1 & Hc1 & Ho1 & Hn1).
  destruct (set_config_numeric config g2) as (Ht2 & Hb2 & Hc2 & Ho2 & Hn2).
  apply Statics_eq; [congruence..|].
  rewrite !set_config_algorithm. by destruct Halg as [-> | [-> | ->]].
Qed.

(** X7: configuring twice with the same object is configuring once. *)
Theorem set_config_idempotent (config : json_t) (g : Statics) :
  set_config get_value_double get_value_uint get_value_string config
    (set_config get_value_double get_value_uint get_value_string config g) =
  set_config get_value_double get_value_uint get_value_string config g.
Proof.
  destruct (set_config_numeric config g) as (Ht1 & Hb1 & Hc1 & Ho1 & Hn1).
  destruct (set_config_numeric config
              (set_config get_value_double get_value_uint get_value_string config g))
    as (Ht2 & Hb2 & Hc2 & Ho2 & Hn2).
  apply Statics_eq; [congruence..|].
  rewrite (set_config_algorithm config (set_config _ _ _ _ _)), !set_config_algorithm.
  destruct (get_value_string "mps_sample_measure_algorithm" config); [|done].
  by repeat case_match.
Qed.

End ConfigProperties.

(** A configuration with a chop threshold, a bond dimension and the
    clone-and-measure sampler. *)
Lemma set_config_installs_configured_run :
  let config : gmap string json_value :=
    {[ "chop_threshold"%string := json_unsigned 3;
       "matrix_product_state_max_bond_dimension"%string := json_unsigned 8;
       "mps_sample_measure_algorithm"%string := json_string "mps_apply_measure" ]} in
  let g := mkStatics 0.5 2 0.5 2 2 Sample_measure_alg.PROB in
  let g' := set_config json_get_double json_get_uint json_get_string config g in
  max_bond_dimension g' = 8 ∧ json_chop_threshold g' = 3%float
  ∧ sample_measure_alg g' = Sample_measure_alg.APPLY_MEASURE.
Proof.
  intros config g g'.
  destruct (set_config_installs_configured json_get_double json_get_uint json_get_string
              config g) as (_ & Hbond & Hchop & _ & _ & _ & Halg).
  split; [|split].
  - apply Hbond. vm_compute. reflexivity.
  - apply (Hchop 3). vm_compute. reflexivity.
  - apply Halg. vm_compute. reflexivity.
Defined.

(** "mps_heuristic" is not a name [set_config] knows: the sampler configured
    before stays. *)
Lemma set_config_unknown_algorithm_keeps_run :
  let config : gmap string json_value :=
    {[ "mps_sample_measure_algorithm"%string := json_string "mps_heuristic" ]} in
  let g := mkStatics 0.5 2 0.5 2 2 Sample_measure_alg.PROB in
  sample_measure_alg (set_config json_get_double json_get_uint json_get_string config g)
  = Sample_measure_alg.PROB.
Proof.
  intros config g.
  apply (set_config_unknown_algorithm_keeps json_get_double json_get_uint json_get_string
           config g "mps_heuristic").
  - vm_compute. reflexivity.
  - discriminate.
  - discriminate.
Defined.

(** The empty configuration gives the defaults, whatever was set before. *)
Lemma set_config_forgets_previous_run :
  set_config json_get_double json_get_uint json_get_string
    (∅ : gmap string json_value) (mkStatics 0.5 2 0.5 2 2 Sample_measure_alg.PROB) =
  set_config json_get_double json_get_uint json_get_string
    (∅ : gmap string json_value) (mkStatics 0.25 4 0.25 4 4 Sample_measure_alg.APPLY_MEASURE).
Proof.
  apply (set_config_forgets_previous json_get_double json_get_uint json_get_string).
  left. vm_compute. reflexivity.
Defined.

(** ** Sampling: the dispatch and the two samplers *)

Section SamplingProperties.

Context {MPS ClassicalRegister RngEngine : Type}.
Variable apply_measure_mps : reg_t → RngEngine → MPS → reg_t * RngEngine * MPS.
Variable MPS_default : MPS.
Variable initialize_copy : MPS → MPS → MPS.
Variable get_max_bond_dimensions : MPS → uint_t.
Variable rand : double → double → RngEngine → double * RngEngine.
Variable sample_measure_using_probabilities_mps : rvector_t → reg_t → MPS → reg_t * MPS.
Variable int2reg : uint_t → uint_t → uint_t → reg_t.
Variable pow : double → double → double.
Variable rvector_limits : vector_limits.
Variable samples_limits : vector_limits.
Implicit Type s : State MPS ClassicalRegister.

(** X8: a configured algorithm overrides the heuristic, whatever the qubits,
    the shots and the bond dimensions are; and the heuristic itself goes to
    clone-and-measure above 26 measured qubits and to marginal probabilities
    below 10, before any bond dimension or shot count is looked at. *)
Theorem sample_measure_dispatch (g : Statics) (qubits : reg_t) (shots : uint_t)
    (rng : RngEngine) s :
  (sample_measure_alg g = Sample_measure_alg.PROB
   ∨ (sample_measure_alg g = Sample_measure_alg.HEURISTIC ∧ (length qubits < 10)%nat) →
   sample_measure apply_measure_mps MPS_default initialize_copy get_max_bond_dimensions
       rand sample_measure_using_probabilities_mps int2reg pow rvector_limits
       samples_limits g qubits shots rng s =
     sample_measure_using_probabilities rand sample_measure_using_probabilities_mps
       int2reg rvector_limits samples_limits qubits shots rng s)
  ∧ (sample_measure_alg g = Sample_measure_alg.APPLY_MEASURE
     ∨ (sample_measure_alg g = Sample_measure_alg.HEURISTIC ∧ (26 < length qubits)%nat) →
     sample_measure apply_measure_mps MPS_default initialize_copy get_max_bond_dimensions
         rand sample_measure_using_probabilities_mps int2reg pow rvector_limits
         samples_limits g qubits shots rng s =
       sample_measure_using_apply_measure apply_measure_mps MPS_default initialize_copy
         samples_limits qubits shots rng s).
Proof.
  unfold sample_measure, sample_measure_choice, sample_measure_strategy.
  split; intros [Halg | [Halg HN]]; rewrite Halg.
  - by rewrite decide_True.
  - rewrite decide_False, (bool_decide_eq_false_2 (_ = _)) by discriminate. cbn [orb].
    rewrite bool_decide_eq_false_2 by lia. by rewrite decide_True by lia.
  - rewrite decide_False by discriminate. by rewrite (bool_decide_eq_true_2 (_ = _)).
  - rewrite decide_False, (bool_decide_eq_false_2 (_ = _)) by discriminate. cbn [orb].
    by rewrite bool_decide_eq_true_2 by lia.
Qed.

(** One shot, in full. *)
Lemma measure_one_shot_full (qreg : MPS) (qubits : reg_t) (i : nat)
    (l : apply_measure_locals) :
  ∃ l1, measure_one_shot apply_measure_mps initialize_copy qreg qubits i l = Returns () l1
    ∧ all_samples l1 =
        <[i := (apply_measure_mps qubits (rng_ l) (initialize_copy (temp l) qreg)).1.1]>
          (all_samples l)
    ∧ rng_ l1 = (apply_measure_mps qubits (rng_ l) (initialize_copy (temp l) qreg)).1.2.
Proof.
  unfold measure_one_shot, modify. cbv zeta.
  destruct (apply_measure_mps qubits (rng_ l) (initialize_copy (temp l) qreg))
    as [[single_result rng] temp'].
  eexists. split; [reflexivity|]. split; reflexivity.
Qed.

(** When [initialize] overwrites the clone with the register, the shots
    that remain fill the rest of the samples with [measure_clones]. *)
Lemma measure_shots_are_clones (qreg : MPS) (qubits : reg_t) :
  (∀ t o, initialize_copy t o = o) →
  ∀ (k : nat) (done : list reg_t) (l : apply_measure_locals),
    all_samples l = done ++ replicate k [] →
    ∃ l', for_loop (length done) k
            (measure_one_shot apply_measure_mps initialize_copy qreg qubits) l
          = Returns () l'
      ∧ all_samples l' =
          done ++ (measure_clones apply_measure_mps qreg qubits k (rng_ l)).1
      ∧ rng_ l' = (measure_clones apply_measure_mps qreg qubits k (rng_ l)).2.
Proof.
  intros Hcopy. induction k as [|k IH]; intros done l Hl.
  - exists l. split; [done|]. split; [|done]. by rewrite Hl.
  - destruct (measure_one_shot_full qreg qubits (length done) l)
      as (l1 & Hshot & Hsamples & Hrng).
    rewrite Hcopy in Hsamples, Hrng.
    rewrite Hl in Hsamples. cbn [replicate] in Hsamples.
    rewrite insert_app_r_alt, Nat.sub_diag in Hsamples by done.
    cbn [insert list_insert] in Hsamples.
    destruct (IH (done ++ [(apply_measure_mps qubits (rng_ l) qreg).1.1]) l1)
      as (l' & Hrun & Hsamples' & Hrng').
    { by rewrite <- app_assoc. }
    rewrite length_app in Hrun. cbn [length] in Hrun. rewrite Nat.add_1_r in Hrun.
    exists l'. split.
    { cbn [for_loop]. unfold mbind, method_bind. by rewrite Hshot. }
    rewrite Hsamples', Hrng', Hrng. cbn [measure_clones].
    destruct (apply_measure_mps qubits (rng_ l) qreg) as [[sample rng'] q'].
    cbn [fst snd].
    destruct (measure_clones apply_measure_mps qreg qubits k rng') as [samples rng''].
    cbn [fst snd]. by rewrite <- app_assoc.
Qed.

(** X9: when [initialize] overwrites the clone with the register, the
    shots fit an [int_t], and the vector of samples can be allocated (the
    shots do not exceed its [max_size()], and there is room for them),
    clone-and-measure returns the outcomes of [shots] successive
    measurements of the register as it stands, the random engine going from
    each shot to the next; the register is not measured itself. *)
Theorem sample_measure_using_apply_measure_is_measure_clones
    (qubits : reg_t) (shots : uint_t) (rng : RngEngine) s :
  (∀ t o, initialize_copy t o = o) →
  0 ≤ shots < 2 ^ 63 →
  shots ≤ max_size samples_limits →
  has_room samples_limits shots = true →
  sample_measure_using_apply_measure apply_measure_mps MPS_default initialize_copy
      samples_limits qubits shots rng s =
    Returns (measure_clones apply_measure_mps (qreg_ s) qubits (Z.to_nat shots) rng) s.
Proof.
  intros Hcopy Hshots Hmax Hroom.
  unfold sample_measure_using_apply_measure, allocate, mbind, method_bind.
  rewrite decide_False by lia. rewrite Hroom, orb_true_r. cbn [mret method_ret].
  assert (Hcast : to_int_t shots = shots) by (unfold to_int_t; by rewrite decide_True by lia).
  rewrite Hcast.
  destruct (measure_shots_are_clones (qreg_ s) qubits Hcopy (Z.to_nat shots) []
              (mkLocals MPS_default (replicate (Z.to_nat shots) []) [] rng))
    as (l' & Hrun & Hsamples & Hrng); [done|].
  cbn [length] in Hrun. cbv zeta. rewrite Hrun, Hsamples, Hrng. cbn [rng_ app].
  by destruct (measure_clones _ _ _ _ _).
Qed.

(** The first [n] entries of a vector from position [j] on, copied with the
    unchecked [operator[]]. *)
Lemma copy_entries (allbit_sample : reg_t) (n : nat) :
  ∀ (j : nat) s, (j + n ≤ length allbit_sample)%nat →
    (fix copy (j n : nat) : method (State MPS ClassicalRegister) reg_t :=
       match n with
       | O => mret []
       | S n' => b ← at_index allbit_sample j; bs ← copy (S j) n'; mret (b :: bs)
       end) j n s = Returns (take n (drop j allbit_sample)) s.
Proof.
  induction n as [|n IH]; intros j s Hj; [done|].
  destruct (lookup_lt_is_Some_2 allbit_sample j ltac:(lia)) as [b Hb].
  rewrite (drop_S _ _ _ Hb). cbn [take].
  unfold mbind at 1, method_bind at 1, at_index at 1. rewrite Hb. cbn [mret method_ret].
  unfold mbind at 1, method_bind at 1. by rewrite IH by lia.
Qed.

(** X10: sampling by probabilities reserves room for [shots] random numbers
    before it draws any: when the shots exceed the [max_size()] of
    [rvector_t] it throws [std::length_error] and the state is as before.
    When both vectors can be allocated (the shots exceed neither
    [max_size()], and there is room) and [int2reg] pads its digits to the
    length asked for, it returns normally: it draws one random number per
    shot, hands them to the register in one call, and each sample it
    returns is the first [qubits.size()] binary digits of a value the
    register gave. *)
Theorem sample_measure_using_probabilities_shape
    (qubits : reg_t) (shots : uint_t) (rng : RngEngine) s :
  (max_size rvector_limits < shots →
   sample_measure_using_probabilities rand sample_measure_using_probabilities_mps
     int2reg rvector_limits samples_limits qubits shots rng s = Throws length_error s)
  ∧ ((∀ n base minlen, (Z.to_nat minlen ≤ length (int2reg n base minlen))%nat) →
     shots ≤ max_size rvector_limits → has_room rvector_limits shots = true →
     shots ≤ max_size samples_limits → has_room samples_limits shots = true →
     ∃ (rnds : rvector_t) (rng' : RngEngine) (vals : reg_t) (q' : MPS),
       draw_rnds rand (Z.to_nat shots) rng = (rnds, rng')
       ∧ length rnds = Z.to_nat shots
       ∧ sample_measure_using_probabilities_mps rnds qubits (qreg_ s) = (vals, q')
       ∧ sample_measure_using_probabilities rand sample_measure_using_probabilities_mps
           int2reg rvector_limits samples_limits qubits shots rng s =
         Returns
           ((λ val, take (length qubits) (int2reg val 2 (Z.of_nat (length qubits))))
              <$> vals,
            rng')
           (mkState q' (creg_ s))).
Proof.
  split.
  { intros Hmax. unfold sample_measure_using_probabilities, allocate.
    unfold mbind at 1, method_bind at 1. by rewrite decide_True. }
  intros Hpad Hrmax Hrroom Hsmax Hsroom. unfold sample_measure_using_probabilities.
  assert (Hlen : ∀ n r, length (draw_rnds rand n r).1 = n).
  { induction n as [|n IH]; intros r; [done|]. cbn [draw_rnds].
    destruct (rand 0 1 r) as [x r']. specialize (IH r').
    destruct (draw_rnds rand n r') as [xs r'']. cbn [fst length] in *. by rewrite IH. }
  specialize (Hlen (Z.to_nat shots) rng).
  assert (Hreserve : ∀ (limits : vector_limits) (s' : State MPS ClassicalRegister),
            shots ≤ max_size limits → has_room limits shots = true →
            allocate limits shots s' = Returns () s').
  { intros limits s' Hmax Hroom. unfold allocate.
    rewrite decide_False by lia. by rewrite Hroom, orb_true_r. }
  unfold mbind at 1, method_bind at 1. rewrite Hreserve by done.
  destruct (draw_rnds rand (Z.to_nat shots) rng) as [rnds rng'].
  destruct (sample_measure_using_probabilities_mps rnds qubits (qreg_ s))
    as [vals q'] eqn:Hvals.
  exists rnds, rng', vals, q'. split; [done|]. split; [done|]. split; [done|].
  unfold mbind at 1, method_bind at 1. rewrite Hvals.
  unfold mbind at 1, method_bind at 1. rewrite Hreserve by done.
  unfold mbind at 1, method_bind at 1.
  generalize (mkState q' (creg_ s)). intros s'.
  assert (Hconvert : ∀ vals s',
    (fix convert (vals : reg_t) : method (State MPS ClassicalRegister) (list reg_t) :=
       match vals with
       | [] => mret []
       | val :: vals =>
           let allbit_sample := int2reg val 2 (Z.of_nat (length qubits)) in
           sample ← (fix copy (j n : nat) : method (State MPS ClassicalRegister) reg_t :=
             match n with
             | O => mret []
             | S n' => b ← at_index allbit_sample j; bs ← copy (S j) n'; mret (b :: bs)
             end) 0%nat (length qubits);
           samples ← convert vals;
           mret (sample :: samples)
       end) vals s' =
    Returns ((λ val, take (length qubits) (int2reg val 2 (Z.of_nat (length qubits)))) <$> vals)
            s').
  { clear -Hpad. induction vals as [|val vals IH]; intros s'; [done|].
    cbv zeta. unfold mbind at 1, method_bind at 1.
    rewrite copy_entries.
    - unfold mbind at 1, method_bind at 1. by rewrite IH.
    - specialize (Hpad val 2 (Z.of_nat (length qubits))). rewrite Nat2Z.id in Hpad. lia. }
  by rewrite Hconvert.
Qed.

End SamplingProperties.

(** The basis-state register |01> (qubit 0 set), sampled three times with
    the marginal-probability sampler configured. *)
Lemma sample_measure_dispatch_run :
  let s := mkState (λ k : Z, bool_decide (k = 0)) () in
  let g := mkStatics 1e-16 UINT64_MAX 1e-8 14 1 Sample_measure_alg.PROB in
  sample_measure basis_apply_measure (λ _, false) (λ _ other, other)
      basis_get_max_bond_dimensions fixed_rand basis_sample_using_probabilities
      digits pow_repeated small_limits small_limits g [0; 1] 3 () s =
    Returns ([[1; 0]; [1; 0]; [1; 0]], ()) s.
Proof.
  intros s g.
  destruct (sample_measure_dispatch basis_apply_measure (λ _, false) (λ _ other, other)
              basis_get_max_bond_dimensions fixed_rand basis_sample_using_probabilities
              digits pow_repeated small_limits small_limits g [0; 1] 3 () s)
    as [Hprob _].
  rewrite Hprob by (left; reflexivity). vm_compute. reflexivity.
Defined.

(** The same register, two shots by clone-and-measure. *)
Lemma sample_measure_using_apply_measure_is_measure_clones_run :
  let s := mkState (λ k : Z, bool_decide (k = 0)) () in
  sample_measure_using_apply_measure basis_apply_measure (λ _, false) (λ _ other, other)
      small_limits [0; 1] 2 () s = Returns ([[1; 0]; [1; 0]], ()) s.
Proof.
  intros s.
  apply (sample_measure_using_apply_measure_is_measure_clones basis_apply_measure
           (λ _, false) (λ _ other, other) small_limits [0; 1] 2 () s).
  - reflexivity.
  - lia.
  - vm_compute. discriminate.
  - reflexivity.
Defined.

(** The same register by marginal probabilities on the small machine: two
    shots, and 2000 shots, more than a vector holds. *)
Lemma sample_measure_using_probabilities_shape_run :
  let s := mkState (λ k : Z, bool_decide (k = 0)) () in
  sample_measure_using_probabilities fixed_rand basis_sample_using_probabilities digits
      small_limits small_limits [0; 1] 2 () s = Returns ([[1; 0]; [1; 0]], ()) s
  ∧ sample_measure_using_probabilities fixed_rand basis_sample_using_probabilities digits
      small_limits small_limits [0; 1] 2000 () s = Throws length_error s.
Proof.
  intros s.
  destruct (sample_measure_using_probabilities_shape (ClassicalRegister := ())
              fixed_rand basis_sample_using_probabilities digits small_limits small_limits
              [0; 1] 2 () s) as [_ Hreturns].
  destruct (sample_measure_using_probabilities_shape (ClassicalRegister := ())
              fixed_rand basis_sample_using_probabilities digits small_limits small_limits
              [0; 1] 2000 () s) as [Hthrows _].
  split; [|apply Hthrows; reflexivity].
  destruct Hreturns as (rnds & rng' & vals & q' & Hdraw & _ & Hvals & Hrun).
  - intros n base minlen. unfold digits. rewrite length_fmap, length_seqZ. lia.
  - vm_compute. discriminate.
  - reflexivity.
  - vm_compute. discriminate.
  - reflexivity.
  - rewrite Hrun. vm_compute in Hdraw. injection Hdraw as <- <-.
    vm_compute in Hvals. injection Hvals as <- <-. vm_compute. reflexivity.
Defined.

(** ** The loop over operations *)

Section ApplyOpsProperties.

Context {MPS ClassicalRegister RngEngine ExperimentResult : Type}.
Variable op_type : Op → OpType.enum.
Variable op_memory : Op → reg_t.
Variable op_registers : Op → reg_t.
Variable check_conditional : Op → ClassicalRegister → bool.
Variable apply_bfunc : Op → ClassicalRegister → ClassicalRegister.
Variable apply_roerror : Op → RngEngine → ClassicalRegister → ClassicalRegister * RngEngine.
Variable num_qubits : MPS → uint_t.
Variable initialize_from_statevector : uint_t → cvector_t → MPS → MPS.
Variable G : mps_gates MPS.
Variable apply_matrix_mps : reg_t → cmatrix_t → MPS → MPS.
Variable apply_measure_mps : reg_t → RngEngine → MPS → reg_t * RngEngine * MPS.
Variable store_measure : reg_t → reg_t → reg_t → ClassicalRegister → ClassicalRegister.
Variable apply_kraus_mps : reg_t → list cmatrix_t → RngEngine → MPS → RngEngine * MPS.
Variable snapshot_state : Op → string →
  method (State MPS ClassicalRegister * ExperimentResult) ().
Variables snapshot_creg_memory snapshot_creg_register : Op →
  method (State MPS ClassicalRegister * ExperimentResult) ().
Variables snapshot_probabilities snapshot_density_matrix
          snapshot_pauli_expval snapshot_matrix_expval :
  Op → SnapshotDataType.enum →
  method (State MPS ClassicalRegister * ExperimentResult) ().

Local Abbreviation run_op :=
  (apply_op op_type op_memory op_registers check_conditional apply_bfunc apply_roerror
     num_qubits initialize_from_statevector G apply_matrix_mps apply_measure_mps
     store_measure apply_kraus_mps snapshot_state snapshot_creg_memory
     snapshot_creg_register snapshot_probabilities snapshot_density_matrix
     snapshot_pauli_expval snapshot_matrix_expval).
Local Abbreviation run_ops :=
  (apply_ops op_type op_memory op_registers check_conditional apply_bfunc apply_roerror
     num_qubits initialize_from_statevector G apply_matrix_mps apply_measure_mps
     store_measure apply_kraus_mps snapshot_state snapshot_creg_memory
     snapshot_creg_register snapshot_probabilities snapshot_density_matrix
     snapshot_pauli_expval snapshot_matrix_expval).

Implicit Type m : machine MPS ClassicalRegister RngEngine ExperimentResult.

Lemma apply_ops_cons (op : Op) (ops : list Op) m :
  run_ops (op :: ops) m =
    match run_op op m with
    | Returns _ m' => run_ops ops m'
    | Throws e m' => Throws e m'
    | Undefined => Undefined
    end.
Proof. reflexivity. Qed.

(** X11: running a list of operations that is two lists in a row is running
    the first and then, if it returned, the second on what the first left.
    When the first throws, the exception passes with the state, the result
    and the engine as they are at the throw: the operations before it stay
    applied, and no operation after it runs. *)
Theorem apply_ops_app (ops1 ops2 : list Op) m :
  apply_ops op_type op_memory op_registers check_conditional apply_bfunc apply_roerror
    num_qubits initialize_from_statevector G apply_matrix_mps apply_measure_mps
    store_measure apply_kraus_mps snapshot_state snapshot_creg_memory
    snapshot_creg_register snapshot_probabilities snapshot_density_matrix
    snapshot_pauli_expval snapshot_matrix_expval (ops1 ++ ops2) m =
  match
    apply_ops op_type op_memory op_registers check_conditional apply_bfunc apply_roerror
      num_qubits initialize_from_statevector G apply_matrix_mps apply_measure_mps
      store_measure apply_kraus_mps snapshot_state snapshot_creg_memory
      snapshot_creg_register snapshot_probabilities snapshot_density_matrix
      snapshot_pauli_expval snapshot_matrix_expval ops1 m
  with
  | Returns _ m1 =>
      apply_ops op_type op_memory op_registers check_conditional apply_bfunc apply_roerror
        num_qubits initialize_from_statevector G apply_matrix_mps apply_measure_mps
        store_measure apply_kraus_mps snapshot_state snapshot_creg_memory
        snapshot_creg_register snapshot_probabilities snapshot_density_matrix
        snapshot_pauli_expval snapshot_matrix_expval ops2 m1
  | Throws e m1 => Throws e m1
  | Undefined => Undefined
  end.
Proof.
  revert m. induction ops1 as [|op ops1 IH]; intros m; [done|].
  rewrite <- app_comm_cons, !apply_ops_cons.
  destruct (run_op op m) as [[] m'|e m'|]; [apply IH|done|done].
Qed.

(** X12: a barrier, and an operation whose condition on the classical
    register does not hold, do nothing at all: the loop goes on with the
    next operation. *)
Theorem apply_ops_skips (op : Op) (ops : list Op) m :
  check_conditional op (creg_ (state_ m)) = false ∨ op_type op = OpType.barrier →
  apply_ops op_type op_memory op_registers check_conditional apply_bfunc apply_roerror
    num_qubits initialize_from_statevector G apply_matrix_mps apply_measure_mps
    store_measure apply_kraus_mps snapshot_state snapshot_creg_memory
    snapshot_creg_register snapshot_probabilities snapshot_density_matrix
    snapshot_pauli_expval snapshot_matrix_expval (op :: ops) m =
  apply_ops op_type op_memory op_registers check_conditional apply_bfunc apply_roerror
    num_qubits initialize_from_statevector G apply_matrix_mps apply_measure_mps
    store_measure apply_kraus_mps snapshot_state snapshot_creg_memory
    snapshot_creg_register snapshot_probabilities snapshot_density_matrix
    snapshot_pauli_expval snapshot_matrix_expval ops m.
Proof.
  intros Hskip. rewrite apply_ops_cons.
  assert (Hop : run_op op m = Returns () m).
  { unfold apply_op, gets, mbind, method_bind.
    destruct (check_conditional op (creg_ (state_ m))); [|done].
    destruct Hskip as [?| ->]; done. }
  by rewrite Hop.
Qed.

(** X13: an operation whose condition holds and whose type the switch has no
    case for makes [apply_ops] throw [std::invalid_argument] with a message
    that quotes the name of the operation; nothing has changed, and the
    operations after it do not run. *)
Theorem apply_ops_unsupported_type (op : Op) (ops : list Op) m :
  check_conditional op (creg_ (state_ m)) = true →
  op_type op = OpType.other →
  apply_ops op_type op_memory op_registers check_conditional apply_bfunc apply_roerror
    num_qubits initialize_from_statevector G apply_matrix_mps apply_measure_mps
    store_measure apply_kraus_mps snapshot_state snapshot_creg_memory
    snapshot_creg_register snapshot_probabilities snapshot_density_matrix
    snapshot_pauli_expval snapshot_matrix_expval (op :: ops) m =
  Throws (invalid_argument
    ("MatrixProductState::State::invalid instruction '" +:+ name op +:+ "'.")) m.
Proof.
  intros Hcond Htype. rewrite apply_ops_cons.
  unfold apply_op, gets, mbind, method_bind. by rewrite Hcond, Htype.
Qed.

(** One gate, barrier or matrix leaves the classical register, the result
    and the engine alone. *)
Lemma apply_op_unitary_frame (op : Op) m :
  op_type op = OpType.gate ∨ op_type op = OpType.barrier ∨ op_type op = OpType.matrix →
  match run_op op m with
  | Returns _ m' | Throws _ m' =>
      creg_ (state_ m') = creg_ (state_ m) ∧ result_ m' = result_ m
      ∧ engine_ m' = engine_ m
  | Undefined => True
  end.
Proof.
  intros Htype. unfold apply_op, gets, mbind, method_bind.
  destruct (check_conditional op (creg_ (state_ m))); [|done].
  destruct Htype as [-> | [-> | ->]].
  - unfold on_state. pose proof (apply_gate_keeps_creg G op (state_ m)) as Hgate.
    by destruct (apply_gate G op (state_ m)).
  - done.
  - unfold at_index. destruct (mats op !! 0%nat) as [mat|]; [|done].
    cbn [mret method_ret]. unfold on_state, apply_matrix, when.
    by destruct (bool_decide _ && bool_decide _).
Qed.

(** X14: a list of gates, barriers and matrices never touches the classical
    register, the experiment result or the random number engine, whether it
    returns or an operation in it throws. *)
Theorem apply_ops_unitary_frame (ops : list Op) m :
  Forall (λ op, op_type op = OpType.gate ∨ op_type op = OpType.barrier
                ∨ op_type op = OpType.matrix) ops →
  match
    apply_ops op_type op_memory op_registers check_conditional apply_bfunc apply_roerror
      num_qubits initialize_from_statevector G apply_matrix_mps apply_measure_mps
      store_measure apply_kraus_mps snapshot_state snapshot_creg_memory
      snapshot_creg_register snapshot_probabilities snapshot_density_matrix
      snapshot_pauli_expval snapshot_matrix_expval ops m
  with
  | Returns _ m' | Throws _ m' =>
      creg_ (state_ m') = creg_ (state_ m) ∧ result_ m' = result_ m
      ∧ engine_ m' = engine_ m
  | Undefined => True
  end.
Proof.
  intros Hops. revert m. induction Hops as [|op ops Hop _ IH]; intros m; [done|].
  rewrite apply_ops_cons. pose proof (apply_op_unitary_frame op m Hop) as Hframe.
  destruct (run_op op m) as [[] m'|e m'|]; [|done|done].
  specialize (IH m'). destruct Hframe as (Hc & Hr & He).
  destruct (run_ops ops m') as [[] m''|e m''|]; [|  |done];
    by rewrite <- Hc, <- Hr, <- He.
Qed.

End ApplyOpsProperties.

(** The spy register: a barrier and an operation whose condition fails are
    passed over, and the x after them is applied. *)
Lemma apply_ops_skips_run :
  let m := mkMachine (mkState ([] : list string) ()) ([] : list string) () in
  let x := mkOp "x" [0] [] [] [] in
  spy_apply_ops [mkOp "barrier" [0; 1] [] [] []; x] m = spy_apply_ops [x] m
  ∧ spy_apply_ops [mkOp "h" [0] [] [] ["never"%string]; x] m = spy_apply_ops [x] m.
Proof.
  intros m x. split.
  - apply apply_ops_skips. right. vm_compute. reflexivity.
  - apply apply_ops_skips. left. vm_compute. reflexivity.
Defined.

(** The spy register: an operation of no supported kind. *)
Lemma apply_ops_unsupported_type_run :
  let m := mkMachine (mkState ([] : list string) ()) ([] : list string) () in
  spy_apply_ops [mkOp "nop" [] [] [] []; mkOp "x" [0] [] [] []] m =
    Throws (invalid_argument "MatrixProductState::State::invalid instruction 'nop'.") m.
Proof.
  intros m.
  apply (apply_ops_unsupported_type spy_op_type).
  - vm_compute. reflexivity.
  - vm_compute. reflexivity.
Defined.

(** The spy register: h, a barrier, an unknown gate and x. The unknown gate
    throws; h stays applied, x is never applied, and the classical
    register, the result and the engine are as before. *)
Lemma apply_ops_unitary_frame_run :
  let m := mkMachine (mkState ([] : list string) ()) ([] : list string) () in
  let ops := [mkOp "h" [0] [] [] []; mkOp "barrier" [] [] [] [];
              mkOp "cy" [0; 1] [] [] []; mkOp "x" [0] [] [] []] in
  spy_apply_ops ops m =
    Throws (invalid_argument "MatrixProductState::State::invalid gate instruction 'cy'.")
      (mkMachine (mkState ["h"%string] ()) [] ()).
Proof.
  intros m ops.
  pose proof (apply_ops_unitary_frame spy_op_type (λ _, []) (λ _, []) spy_check_conditional
    (λ _ creg, creg) (λ _ rng creg, (creg, rng))
    (λ _, 2) (λ _ _, record_call "initialize_from_statevector") spy_gates
    spy_apply_matrix
    (λ qubits rng log, (const 0 <$> qubits, rng, record_call "measure" log))
    (λ _ _ _ creg, creg)
    (λ _ _ rng log, (rng, record_call "kraus" log))
    (λ _, spy_snapshot) (λ _, spy_snapshot "memory")
    (λ _, spy_snapshot "register") (λ _ _, spy_snapshot "probabilities")
    (λ _ _, spy_snapshot "density_matrix") (λ _ _, spy_snapshot "pauli")
    (λ _ _, spy_snapshot "matrix") ops m) as Hframe.
  fold (spy_apply_ops ops) in Hframe.
  assert (Hunitary : Forall (λ op, spy_op_type op = OpType.gate
                                   ∨ spy_op_type op = OpType.barrier
                                   ∨ spy_op_type op = OpType.matrix) ops).
  { subst ops. repeat (apply Forall_cons; split). all: try apply Forall_nil.
    all: vm_compute; auto. }
  specialize (Hframe Hunitary).
  destruct (spy_apply_ops ops m) as [[] m'|e m'|] eqn:Hrun;
    vm_compute in Hrun; [discriminate| |discriminate].
  by injection Hrun as <- <-.
Defined.

(** ** Vectorized matrices *)

Section VectorMatrixProperties.

Context {MPS ClassicalRegister : Type}.
Variable apply_diagonal_matrix_mps : reg_t → cvector_t → MPS → MPS.
Variable apply_matrix_vmat_mps : reg_t → cvector_t → MPS → MPS.
Implicit Type s : State MPS ClassicalRegister.

(** X15: on [k] qubits (fewer than 64), a vector of [2^k] entries is applied
    as the diagonal of a matrix; a vector of [4^k] entries, a full matrix,
    is never taken for a diagonal when there is at least one qubit. With 64
    qubits or more the shift that computes [2^k] is undefined. *)
Theorem apply_matrix_vmat_dispatch (qubits : reg_t) (vmat : cvector_t) s :
  ((length qubits < 64)%nat → Z.of_nat (length vmat) = 2 ^ Z.of_nat (length qubits) →
     apply_matrix_vmat apply_diagonal_matrix_mps apply_matrix_vmat_mps qubits vmat s =
       Returns () (set_qreg (apply_diagonal_matrix_mps qubits vmat) s))
  ∧ ((0 < length qubits < 64)%nat →
     Z.of_nat (length vmat) = 4 ^ Z.of_nat (length qubits) →
     apply_matrix_vmat apply_diagonal_matrix_mps apply_matrix_vmat_mps qubits vmat s =
       Returns () (set_qreg (apply_matrix_vmat_mps qubits vmat) s))
  ∧ ((64 ≤ length qubits)%nat →
     apply_matrix_vmat apply_diagonal_matrix_mps apply_matrix_vmat_mps qubits vmat s =
       Undefined).
Proof.
  unfold apply_matrix_vmat. rewrite Z.shiftl_1_l.
  split; [|split].
  - intros Hk Hlen. by rewrite decide_True, decide_True.
  - intros Hk Hlen. rewrite decide_True by lia.
    rewrite decide_False; [done|]. rewrite Hlen. change 4 with (2 * 2).
    rewrite Z.pow_mul_l.
    assert (2 ^ 1 ≤ 2 ^ Z.of_nat (length qubits))
      by (apply Z.pow_le_mono_r; lia).
    nia.
  - intros Hk. by rewrite decide_False by lia.
Qed.

End VectorMatrixProperties.

(** One qubit on the spy register: two entries are a diagonal, four a
    matrix. *)
Lemma apply_matrix_vmat_dispatch_run :
  let s := mkState ([] : list string) () in
  apply_matrix_vmat (λ _ _, record_call "diagonal") (λ _ _, record_call "matrix")
      [0] (replicate 2 (amplitude 1)) s = Returns () (mkState ["diagonal"%string] ())
  ∧ apply_matrix_vmat (λ _ _, record_call "diagonal") (λ _ _, record_call "matrix")
      [0] (replicate 4 (amplitude 1)) s = Returns () (mkState ["matrix"%string] ()).
Proof.
  intros s.
  destruct (apply_matrix_vmat_dispatch (ClassicalRegister := ())
              (λ _ _, record_call "diagonal") (λ _ _, record_call "matrix")
              [0] (replicate 2 (amplitude 1)) s) as (Hdiagonal & _ & _).
  destruct (apply_matrix_vmat_dispatch (ClassicalRegister := ())
              (λ _ _, record_call "diagonal") (λ _ _, record_call "matrix")
              [0] (replicate 4 (amplitude 1)) s) as (_ & Hmatrix & _).
  split.
  - apply Hdiagonal; [cbn; lia|reflexivity].
  - apply Hmatrix; [cbn; lia|reflexivity].
Defined.

(** ** The update after a measurement, for either final state *)

Section ResetUpdateProperties.

Context {MPS ClassicalRegister : Type}.
Variable apply_x_mps : uint_t → MPS → MPS.
Variable qubit_is : MPS → uint_t → uint_t → Prop.
Hypothesis x_flips : ∀ q k b, qubit_is q k b → qubit_is (apply_x_mps k q) k (1 - b).
Hypothesis x_elsewhere : ∀ q k j b,
  j ≠ k → qubit_is q j b → qubit_is (apply_x_mps k q) j b.

(** The loop from position [i] on, when every qubit has its outcome. *)
Lemma measure_reset_update_loop (qubits meas : reg_t) (final_state : uint_t)
    (c : ClassicalRegister) :
  length meas = length qubits →
  ∀ (n i : nat) (q : MPS), (i + n = length qubits)%nat →
    for_loop i n (λ i,
      m ← at_index meas i;
      if decide (m ≠ final_state) then
        k ← at_index qubits i; on_qreg (apply_x_mps k)
      else mret ()) (mkState q c) =
    Returns () (mkState (flip_to apply_x_mps final_state (drop i (zip qubits meas)) q) c).
Proof.
  intros Hlen. induction n as [|n IH]; intros i q Hi.
  - simpl. rewrite drop_ge by (rewrite length_zip; lia). reflexivity.
  - destruct (lookup_lt_is_Some_2 qubits i ltac:(lia)) as [k Hk].
    destruct (lookup_lt_is_Some_2 meas i ltac:(lia)) as [m Hm].
    assert (Hzip : zip qubits meas !! i = Some (k, m))
      by (apply lookup_zip_with_Some; eauto).
    rewrite (drop_S _ _ _ Hzip).
    cbn [for_loop]. unfold mbind at 1, method_bind at 1.
    unfold mbind at 1, method_bind at 1, at_index at 1. rewrite Hm.
    cbn [mret method_ret flip_to foldl fst snd].
    destruct (decide (m ≠ final_state)).
    + unfold mbind at 1, method_bind at 1, at_index at 1. rewrite Hk.
      cbn [mret method_ret on_qreg modify set_qreg qreg_ creg_].
      by apply IH; lia.
    + cbn [mret method_ret]. by apply IH; lia.
Qed.

(** The loop from position [i] on, when the outcomes run out first. *)
Lemma measure_reset_update_short (qubits meas : reg_t) (final_state : uint_t) :
  (length meas < length qubits)%nat →
  ∀ (n i : nat) (s : State MPS ClassicalRegister),
    (i + n = length qubits)%nat → (i ≤ length meas)%nat →
    for_loop i n (λ i,
      m ← at_index meas i;
      if decide (m ≠ final_state) then
        k ← at_index qubits i; on_qreg (apply_x_mps k)
      else mret ()) s = Undefined.
Proof.
  intros Hlen. induction n as [|n IH]; intros i s Hi Hle; [lia|].
  cbn [for_loop]. unfold mbind at 1, method_bind at 1.
  unfold mbind at 1, method_bind at 1, at_index at 1.
  destruct (meas !! i) as [m|] eqn:Hm; [|done].
  apply lookup_lt_Some in Hm.
  destruct (lookup_lt_is_Some_2 qubits i ltac:(lia)) as [k Hk].
  cbn [mret method_ret].
  destruct (decide (m ≠ final_state)).
  - unfold mbind at 1, method_bind at 1, at_index at 1. rewrite Hk.
    cbn [mret method_ret on_qreg modify]. apply IH; lia.
  - cbn [mret method_ret]. apply IH; lia.
Qed.

Lemma flip_to_elsewhere (final_state : uint_t) (measured : list (uint_t * uint_t))
    (q : MPS) (j b : uint_t) :
  j ∉ measured.*1 → qubit_is q j b →
  qubit_is (flip_to apply_x_mps final_state measured q) j b.
Proof.
  revert q. induction measured as [|[k m] measured IH]; intros q Hj Hq; [done|].
  rewrite fmap_cons, not_elem_of_cons in Hj. destruct Hj as [Hjk Hj].
  cbn [flip_to foldl fst snd]. apply IH; [done|].
  case_decide; [by apply x_elsewhere|done].
Qed.

Lemma flip_to_final_state (final_state : uint_t) (measured : list (uint_t * uint_t))
    (q : MPS) :
  final_state = 0 ∨ final_state = 1 →
  NoDup measured.*1 →
  (∀ k m, (k, m) ∈ measured → (m = 0 ∨ m = 1) ∧ qubit_is q k m) →
  ∀ k, k ∈ measured.*1 →
    qubit_is (flip_to apply_x_mps final_state measured q) k final_state.
Proof.
  intros Hf. revert q.
  induction measured as [|[k0 m0] measured IH]; intros q Hnd Hq k Hk.
  - by apply elem_of_nil in Hk.
  - rewrite fmap_cons in Hnd, Hk. apply NoDup_cons in Hnd as [Hk0 Hnd].
    destruct (Hq k0 m0 ltac:(left)) as [Hm0 Hq0].
    cbn [flip_to foldl fst snd].
    set (q1 := if decide (m0 ≠ final_state) then apply_x_mps k0 q else q).
    assert (Hq1 : qubit_is q1 k0 final_state).
    { subst q1. case_decide as Hne.
      - replace final_state with (1 - m0) by lia. by apply x_flips.
      - by rewrite <- Hne. }
    apply elem_of_cons in Hk as [-> | Hk].
    + by apply flip_to_elsewhere.
    + apply IH; [done| |done]. intros k' m' Hin.
      destruct (Hq k' m' ltac:(by right)) as [Hm' Hq'].
      split; [done|]. subst q1. case_decide; [|done].
      apply x_elsewhere; [|done]. intros ->. apply Hk0.
      apply list_elem_of_fmap. by exists (k0, m').
Qed.

(** X16: [measure_reset_update] brings the measured qubits to either final
    state. Given one outcome bit per qubit, each the basis state its qubit is
    in, and a list that names each qubit once, it applies X to the qubits
    whose outcome differs from [final_state], returns, and every qubit of
    the list is in [final_state]; the classical register is as before. With
    fewer outcomes than qubits it reads past the end of the outcomes. *)
Theorem measure_reset_update_reaches (qubits meas : reg_t) (final_state : uint_t)
    (q : MPS) (c : ClassicalRegister) :
  final_state = 0 ∨ final_state = 1 →
  (length meas = length qubits →
   Forall (λ b, b = 0 ∨ b = 1) meas →
   NoDup qubits →
   (∀ i k m, qubits !! i = Some k → meas !! i = Some m → qubit_is q k m) →
   measure_reset_update apply_x_mps qubits final_state meas (mkState q c) =
     Returns () (mkState (flip_to apply_x_mps final_state (zip qubits meas) q) c)
   ∧ ∀ k, k ∈ qubits →
       qubit_is (flip_to apply_x_mps final_state (zip qubits meas) q) k final_state)
  ∧ ((length meas < length qubits)%nat →
     measure_reset_update apply_x_mps qubits final_state meas (mkState q c) = Undefined).
Proof.
  intros Hf. split.
  - intros Hlen Hbits Hnd Hq. split.
    + unfold measure_reset_update.
      by rewrite (measure_reset_update_loop qubits meas final_state c Hlen
                    (length qubits) 0%nat q ltac:(lia)).
    + intros k Hk. apply flip_to_final_state; [done| | |].
      * by rewrite fst_zip by lia.
      * intros k' m Hin. apply list_elem_of_lookup in Hin as [i Hi].
        apply lookup_zip_with_Some in Hi as (k'' & m'' & [= -> ->] & Hk' & Hm).
        split; [by eapply Forall_lookup_1 in Hbits|by eapply Hq].
      * by rewrite fst_zip by lia.
  - intros Hshort. unfold measure_reset_update.
    apply (measure_reset_update_short qubits meas final_state Hshort); lia.
Qed.

End ResetUpdateProperties.

(** The basis-state register |011>, qubits 0 and 2 measured as 1 and 0 and
    brought to 1: only qubit 2 is flipped. With one outcome for two qubits
    the update is undefined. *)
Lemma measure_reset_update_reaches_run :
  let q := λ k : Z, bool_decide (k = 0 ∨ k = 1) in
  (measure_reset_update basis_apply_x [0; 2] 1 [1; 0] (mkState q ()) =
     Returns () (mkState (basis_apply_x 2 q) ())
   ∧ ∀ k, k ∈ [0; 2] → basis_qubit_is (basis_apply_x 2 q) k 1)
  ∧ measure_reset_update basis_apply_x [0; 2] 1 [1] (mkState q ()) = Undefined.
Proof.
  intros q.
  destruct (measure_reset_update_reaches basis_apply_x basis_qubit_is
              basis_x_flips basis_x_elsewhere [0; 2] [1; 0] 1 q ())
    as [Hreaches _]; [by right|].
  destruct (measure_reset_update_reaches basis_apply_x basis_qubit_is
              basis_x_flips basis_x_elsewhere [0; 2] [1] 1 q ())
    as [_ Hshort]; [by right|].
  split.
  - apply Hreaches.
    + reflexivity.
    + apply Forall_cons; split; [by right|].
      apply Forall_cons; split; [by left|]. by apply Forall_nil.
    + apply (bool_decide_unpack _). vm_compute. exact I.
    + intros i k m Hk Hm. destruct i as [|[|i]]; simplify_eq/=; reflexivity.
  - apply Hshort. cbn. lia.
Defined.

(** ** Initialization of the whole register *)

Lemma seqZ_Sorted (m : Z) (len : nat) : Sorted Z.le (seqZ m (Z.of_nat len)).
Proof.
  revert m. induction len as [|len IH]; intros m.
  - rewrite seqZ_nil by lia. constructor.
  - rewrite seqZ_cons by lia. replace (Z.pred (Z.of_nat (S len))) with (Z.of_nat len) by lia.
    constructor; [apply IH|].
    destruct len as [|len].
    + rewrite seqZ_nil by lia. constructor.
    + rewrite seqZ_cons by lia. constructor. lia.
Qed.

(** A list is its own sorted copy exactly when it is in ascending order. *)
Lemma sort_fixpoint (l : reg_t) : l = sort l ↔ Sorted Z.le l.
Proof.
  split.
  - intros ->. apply StronglySorted_Sorted, sort_Sorted.
  - intros Hsorted. apply (Sorted_unique Z.le); [done| |].
    + apply StronglySorted_Sorted, sort_Sorted.
    + symmetry. apply merge_sort_Permutation.
Qed.

Section FullInitializeProperties.

Context {MPS ClassicalRegister RngEngine : Type}.
Variable num_qubits : MPS → uint_t.
Variable initialize_from_statevector : uint_t → cvector_t → MPS → MPS.
Implicit Type s : State MPS ClassicalRegister.

(** X17: [apply_initialize] ends in the partial-initialization error exactly
    when the list has another size than the register or is not in
    ascending order; the values of the qubits in the list are not looked
    at. *)
Theorem apply_initialize_rejects_iff (qubits : reg_t) (params : cvector_t)
    (rng : RngEngine) s :
  apply_initialize num_qubits initialize_from_statevector qubits params rng s =
    Throws (invalid_argument "MPS_State: Partial initialization not supported yet.") s
  ↔ (Z.of_nat (length qubits) ≠ num_qubits (qreg_ s) ∨ ¬ Sorted Z.le qubits).
Proof.
  destruct (apply_initialize_cases num_qubits initialize_from_statevector
              qubits params rng s) as [(Hlen & Hsorted & Hfull) | [Hcause Hthrow]].
  - split.
    + intros Hthrow. rewrite Hfull in Hthrow.
      by apply initialize_qreg_statevector_not_partial in Hthrow.
    + intros [Hne | Hunsorted]; [done|]. by apply sort_fixpoint in Hsorted.
  - split; [|done]. intros _. destruct Hcause as [Hne | Hne]; [by left|right].
    by rewrite <- sort_fixpoint.
Qed.

(** X18: on an [n]-qubit register, the qubits 0, ..., n-1 in this order and
    a vector of [2^n] amplitudes initialize the register: the call returns,
    and the register is built from the bit-reversed vector. *)
Theorem apply_initialize_full_register (n : uint_t) (params : cvector_t)
    (rng : RngEngine) s :
  0 ≤ n → num_qubits (qreg_ s) = n → Z.of_nat (length params) = 2 ^ n →
  ∃ w : cvector_t,
    reverse_all_bits params n = Some w
    ∧ apply_initialize num_qubits initialize_from_statevector (seqZ 0 n) params rng s =
        Returns () (set_qreg (initialize_from_statevector n w) s).
Proof.
  intros Hn Hnum Hparams.
  destruct (reverse_all_bits_lookup params n Hn Hparams) as (w & Hw & _).
  exists w. split; [done|].
  unfold apply_initialize, gets, mbind, method_bind.
  rewrite length_seqZ, Z2Nat.id by done. rewrite decide_True by done.
  rewrite decide_True.
  - unfold initialize_qreg_statevector, gets, mbind, method_bind.
    rewrite decide_False by (intros Hne; by apply Hne). by rewrite Hw.
  - apply sort_fixpoint. rewrite <- (Z2Nat.id n) by done. apply seqZ_Sorted.
Qed.

End FullInitializeProperties.

(** Two qubits as a dense register, initialized on qubits 0 and 1. *)
Lemma apply_initialize_full_register_witness :
  let s := mkState (amplitude 1 :: replicate 3 (amplitude 0)) () in
  apply_initialize dense_num_qubits dense_initialize_from_statevector
      [0; 1] [amplitude 0.1; amplitude 0.2; amplitude 0.3; amplitude 0.4] () s =
    Returns () (mkState [amplitude 0.1; amplitude 0.3; amplitude 0.2; amplitude 0.4] ()).
Proof.
  intros s.
  destruct (apply_initialize_full_register dense_num_qubits
              dense_initialize_from_statevector 2
              [amplitude 0.1; amplitude 0.2; amplitude 0.3; amplitude 0.4] () s)
    as (w & Hw & Hrun).
  - lia.
  - reflexivity.
  - reflexivity.
  - vm_compute in Hw. injection Hw as <-. exact Hrun.
Defined.

(** ** Snapshots: components and labels *)

Lemma snapshotset_lookups :
  snapshotset_ !! "statevector"%string = Some Snapshots.statevector
  ∧ snapshotset_ !! "probabilities"%string = Some Snapshots.probs
  ∧ snapshotset_ !! "probabilities_with_variance"%string = Some Snapshots.probs_var
  ∧ snapshotset_ !! "density_matrix"%string = Some Snapshots.densmat
  ∧ snapshotset_ !! "density_matrix_with_variance"%string = Some Snapshots.densmat_var
  ∧ snapshotset_ !! "expectation_value_pauli"%string = Some Snapshots.expval_pauli
  ∧ snapshotset_ !! "expectation_value_pauli_with_variance"%string
    = Some Snapshots.expval_pauli_var
  ∧ snapshotset_ !! "expectation_value_pauli_single_shot"%string
    = Some Snapshots.expval_pauli_shot
  ∧ snapshotset_ !! "expectation_value_matrix"%string = Some Snapshots.expval_matrix
  ∧ snapshotset_ !! "expectation_value_matrix_with_variance"%string
    = Some Snapshots.expval_matrix_var
  ∧ snapshotset_ !! "expectation_value_matrix_single_shot"%string
    = Some Snapshots.expval_matrix_shot.
Proof. vm_compute. repeat split; reflexivity. Qed.

Section SnapshotProperties.

Context {MPS ClassicalRegister ExperimentResult ket : Type}.
Variable params_expval_pauli : Op → list (complex_t * string).
Variable params_expval_matrix : Op → list (complex_t * list (reg_t * cmatrix_t)).
Variable expectation_value_pauli : reg_t → string → MPS → complex_t * MPS.
Variable expectation_value : reg_t → cmatrix_t → MPS → double * MPS.
Variable full_state_vector : MPS → cvector_t * MPS.
Variable get_probabilities_vector : reg_t → MPS → rvector_t.
Variable density_matrix : reg_t → MPS → cmatrix_t * MPS.
Variable norm : MPS → double * MPS.
Variable complex_add : complex_t → complex_t → complex_t.
Variable complex_mul : complex_t → complex_t → complex_t.
Variable complex_scale : complex_t → double → complex_t.
Variable chop_inplace : complex_t → double → complex_t.
Variable vec2ket : rvector_t → double → uint_t → ket.
Variable memory_hex : ClassicalRegister → string.
Variable add_average_snapshot_complex :
  string → string → string → complex_t → bool → ExperimentResult → ExperimentResult.
Variable add_pershot_snapshot_complex :
  string → string → complex_t → ExperimentResult → ExperimentResult.
Variable add_pershot_snapshot_cvector :
  string → string → cvector_t → ExperimentResult → ExperimentResult.
Variable add_average_snapshot_ket :
  string → string → string → ket → bool → ExperimentResult → ExperimentResult.
Variable add_average_snapshot_cmatrix :
  string → string → string → cmatrix_t → bool → ExperimentResult → ExperimentResult.
Variable add_pershot_snapshot_cmatrix :
  string → string → cmatrix_t → ExperimentResult → ExperimentResult.
Variables snapshot_creg_memory snapshot_creg_register : Op →
  method (State MPS ClassicalRegister * ExperimentResult) ().
Variable g : Statics.

Implicit Type r : State MPS ClassicalRegister * ExperimentResult.







(** X19: an expectation-value snapshot without components is rejected: each
    of the three Pauli snapshots throws "Invalid expval snapshot (Pauli
    components are empty)." and each of the three matrix snapshots
    "Invalid matrix snapshot (components are empty).", before the register
    is observed; the state and the result are as before. *)
Theorem apply_snapshot_needs_components (op : Op) (s : State MPS ClassicalRegister)
    (result : ExperimentResult) :
  (name op ∈ ["expectation_value_pauli"; "expectation_value_pauli_with_variance";
              "expectation_value_pauli_single_shot"]%string →
   params_expval_pauli op = [] →
   apply_snapshot_op params_expval_pauli params_expval_matrix
     expectation_value_pauli expectation_value full_state_vector
     get_probabilities_vector density_matrix norm complex_add complex_mul
     complex_scale chop_inplace vec2ket memory_hex add_average_snapshot_complex
     add_pershot_snapshot_complex add_pershot_snapshot_cvector
     add_average_snapshot_ket add_average_snapshot_cmatrix
     add_pershot_snapshot_cmatrix snapshot_creg_memory snapshot_creg_register g op
     (s, result) =
   Throws (invalid_argument "Invalid expval snapshot (Pauli components are empty).")
     (s, result))
  ∧ (name op ∈ ["expectation_value_matrix"; "expectation_value_matrix_with_variance";
                "expectation_value_matrix_single_shot"]%string →
     params_expval_matrix op = [] →
     apply_snapshot_op params_expval_pauli params_expval_matrix
       expectation_value_pauli expectation_value full_state_vector
       get_probabilities_vector density_matrix norm complex_add complex_mul
       complex_scale chop_inplace vec2ket memory_hex add_average_snapshot_complex
       add_pershot_snapshot_complex add_pershot_snapshot_cvector
       add_average_snapshot_ket add_average_snapshot_cmatrix
       add_pershot_snapshot_cmatrix snapshot_creg_memory snapshot_creg_register g op
       (s, result) =
     Throws (invalid_argument "Invalid matrix snapshot (components are empty).")
       (s, result)).
Proof.
  destruct snapshotset_lookups
    as (_ & _ & _ & _ & _ & Hp & Hpv & Hps & Hm & Hmv & Hms).
  split; intros Hname Hempty; rewrite !elem_of_cons, elem_of_nil in Hname;
    destruct Hname as [Hname | [Hname | [Hname | []]]];
    unfold apply_snapshot_op, apply_snapshot; rewrite Hname.
  - rewrite Hp. unfold snapshot_pauli_expval. by rewrite decide_True.
  - rewrite Hpv. unfold snapshot_pauli_expval. by rewrite decide_True.
  - rewrite Hps. unfold snapshot_pauli_expval. by rewrite decide_True.
  - rewrite Hm. unfold snapshot_matrix_expval. by rewrite decide_True.
  - rewrite Hmv. unfold snapshot_matrix_expval. by rewrite decide_True.
  - rewrite Hms. unfold snapshot_matrix_expval. by rewrite decide_True.
Qed.


End SnapshotProperties.

(** The spy register: a Pauli snapshot without components, and a matrix
    snapshot without components. *)
Lemma apply_snapshot_needs_components_run :
  let s := mkState ([] : list string) () in
  spy_apply_snapshot_op [] [] (mkOp "expectation_value_pauli" [0] [] [] ["zz"%string])
      (s, []) =
    Throws (invalid_argument "Invalid expval snapshot (Pauli components are empty).")
      (s, [])
  ∧ spy_apply_snapshot_op [] []
      (mkOp "expectation_value_matrix_single_shot" [0] [] [] ["m"%string]) (s, []) =
    Throws (invalid_argument "Invalid matrix snapshot (components are empty).") (s, []).
Proof.
  intros s. split.
  - eapply apply_snapshot_needs_components; [|reflexivity].
    apply (bool_decide_unpack _). vm_compute. exact I.
  - eapply apply_snapshot_needs_components; [|reflexivity].
    apply (bool_decide_unpack _). vm_compute. exact I.
Defined.


(** ** The snapshot table and the advertised snapshots *)

(** X21: every snapshot name that [StateOpSet] advertises has an entry in
    the snapshot table [snapshotset_], and the table has exactly one entry
    that is not advertised: "probabilities_with_variance". *)
Theorem snapshotset_covers_StateOpSet (n : string) :
  (n ∈ StateOpSet_snapshots → is_Some (snapshotset_ !! n))
  ∧ (is_Some (snapshotset_ !! n) ∧ n ∉ StateOpSet_snapshots
     ↔ n = "probabilities_with_variance"%string).
Proof.
  assert (Hsome : is_Some (snapshotset_ !! n) ↔ n ∈ snapshotset_names).
  { split.
    - intros Hsome. destruct (decide (n ∈ snapshotset_names)) as [|Hnot]; [done|].
      apply snapshotset_lookup_None in Hnot. rewrite Hnot in Hsome.
      by destruct Hsome.
    - intros Hin. destruct (snapshotset_ !! n) eqn:E; [eauto|].
      apply not_elem_of_list_to_map_2 in E. contradiction. }
  rewrite Hsome, snapshotset_names_StateOpSet. split; [tauto|]. split.
  - intros [[Hin | ->] Hnot]; [contradiction|reflexivity].
  - intros ->. split; [by right|].
    apply (bool_decide_unpack _). vm_compute. exact I.
Qed.
